(** * HarperBot: diff positions, suggestion parsing and patch application

    A shallow embedding of the text-processing core of
    [harperbot/harperbot.py]:

    - [find_diff_position]          (lines 41-93),
    - [parse_diff_for_suggestions]  (lines 395-425),
    - [parse_code_suggestions]      (lines 442-466, the block extraction),
    - [apply_suggestions_to_pr]     (lines 586-633, the groups and the
                                     per-file loop),
    - [sanitize_text]               (lines 329-343),
    - [update_main_comment]         (lines 699-713),
    - [verify_webhook_signature]    (lines 748-769).

    Python [str] values are modelled by [string]; every [ascii] stands for
    the code point of the same number (code points below 256).  Python
    [int] values are modelled by [Z]. *)

From Stdlib Require Import ZArith List String Ascii Bool Lia.
From Stdlib Require Import Permutation Sorted.
Import ListNotations.

Local Open Scope string_scope.
Local Open Scope Z_scope.

(** ** Python string primitives *)

(** The line feed, ["\n"]. *)
Definition LF : ascii := "010"%char.

Definition nl : string := String LF "".

(** [s.startswith(p)]. *)
Fixpoint startswith (s p : string) {struct p} : bool :=
  match p with
  | "" => true
  | String c p' =>
      match s with
      | "" => false
      | String d s' => Ascii.eqb c d && startswith s' p'
      end
  end.

(** [p in s] for two strings: [p] occurs in [s] as a contiguous substring. *)
Fixpoint contains (p s : string) : bool :=
  startswith s p ||
  match s with
  | "" => false
  | String _ s' => contains p s'
  end.

(** [s.split("\n")]: never empty, [""] splits into [[""]]. *)
Fixpoint split_lines (s : string) : list string :=
  match s with
  | "" => [""]
  | String c s' =>
      if Ascii.eqb c LF then "" :: split_lines s'
      else match split_lines s' with
           | l :: ls => String c l :: ls
           | [] => [String c ""]
           end
  end.

(** ["\n".join(ls)]. *)
Fixpoint join_lines (ls : list string) : string :=
  match ls with
  | [] => ""
  | [l] => l
  | l :: ls' => l ++ nl ++ join_lines ls'
  end.

(** [s[n:]] for [0 <= n]. *)
Fixpoint drop (n : nat) (s : string) : string :=
  match n, s with
  | O, _ => s
  | S _, "" => ""
  | S n', String _ s' => drop n' s'
  end.

(** [s[:n]] for [0 <= n]. *)
Fixpoint take (n : nat) (s : string) : string :=
  match n, s with
  | O, _ => ""
  | S _, "" => ""
  | S n', String c s' => String c (take n' s')
  end.

(** [c.isdigit()] on code points below 256: the ten ASCII digits (this is
    also what [\d] matches there). *)
Definition is_digit (c : ascii) : bool :=
  let n := nat_of_ascii c in (48 <=? n)%nat && (n <=? 57)%nat.

Definition digit_value (c : ascii) : Z := Z.of_nat (nat_of_ascii c) - 48.

(** [int(ds)] for a string of decimal digits, most significant first. *)
Fixpoint int_of_digits_from (acc : Z) (ds : string) : Z :=
  match ds with
  | "" => acc
  | String c ds' => int_of_digits_from (10 * acc + digit_value c) ds'
  end.

Definition int_of_digits (ds : string) : Z := int_of_digits_from 0 ds.

(** ** The hunk header pattern

    Both parsers use
    [re.match(r"@@ -\d+(?:,\d+)? \+(\d+)(?:,\d+)? @@", line)].
    The pattern is anchored at the start of the line only.  Digits, [","]
    and [" "] are pairwise different characters, so the greedy left to
    right reading below finds a match exactly when the backtracking
    matcher does, and with the same group 1. *)

(** A literal piece of the pattern: the rest of [s] after [lit]. *)
Definition expect (lit s : string) : option string :=
  if startswith s lit then Some (drop (String.length lit) s) else None.

(** The longest run of digits at the start of [s], and what follows it. *)
Fixpoint span_digits (s : string) : string * string :=
  match s with
  | "" => ("", "")
  | String c s' =>
      if is_digit c
      then let (ds, rest) := span_digits s' in (String c ds, rest)
      else ("", s)
  end.

(** [\d+]. *)
Definition digits1 (s : string) : option (string * string) :=
  match span_digits s with
  | ("", _) => None
  | (ds, rest) => Some (ds, rest)
  end.

(** [(?:,\d+)?]. *)
Definition opt_comma_digits (s : string) : string :=
  match expect "," s with
  | Some s' =>
      match digits1 s' with
      | Some (_, rest) => rest
      | None => s
      end
  | None => s
  end.

(** [int(match.group(1))] when the pattern matches [line], [None] when
    [re.match] returns [None]. *)
Definition hunk_new_start (line : string) : option Z :=
  match expect "@@ -" line with
  | None => None
  | Some s1 =>
      match digits1 s1 with
      | None => None
      | Some (_, s2) =>
          match expect " +" (opt_comma_digits s2) with
          | None => None
          | Some s4 =>
              match digits1 s4 with
              | None => None
              | Some (ds, s5) =>
                  match expect " @@" (opt_comma_digits s5) with
                  | None => None
                  | Some _ => Some (int_of_digits ds)
                  end
              end
          end
      end
  end.

(** ** [find_diff_position] *)

(** The [for line in hunk_lines] loop (lines 73-86): [Some position] when
    the loop returns, [None] when it runs to its end. *)
Fixpoint scan_hunk (line_number : Z) (hunk_lines : list string)
    (current_line position : Z) : option Z :=
  match hunk_lines with
  | [] => None
  | line :: rest =>
      if startswith line "+" then
        if current_line =? line_number then Some position
        else scan_hunk line_number rest (current_line + 1) (position + 1)
      else if startswith line "-" then
        scan_hunk line_number rest current_line (position + 1)
      else
        scan_hunk line_number rest (current_line + 1) (position + 1)
  end.

(** The collection loop (lines 63-70): the lines up to the next one that
    starts with ["@@"] or ["diff --git"], and the lines from there on. *)
Fixpoint collect_hunk (lines : list string) : list string * list string :=
  match lines with
  | [] => ([], [])
  | l :: rest =>
      if negb (startswith l "@@") && negb (startswith l "diff --git")
      then let (hunk_lines, rest') := collect_hunk rest in
           (l :: hunk_lines, rest')
      else ([], lines)
  end.

(** The test of line 52 on a line of the diff. *)
Definition section_selected (file_path line : string) : bool :=
  startswith line "diff --git" && contains ("b/" ++ file_path) line.

(** The two [while i < len(lines)] loops.  The state holds [lines[i:]],
    the only part of [lines] the code can still read, and which loop the
    control is in. *)
Inductive fdp_state : Type :=
| Outer (rest : list string)
| Inner (rest : list string).

(** One turn of the loop the control is in: the next state, or the value
    returned. *)
Definition fdp_step (file_path : string) (line_number : Z)
    (st : fdp_state) : fdp_state + option Z :=
  match st with
  | Outer [] => inr None
  | Outer (l :: rest) =>
      if section_selected file_path l then inl (Inner rest)
      else inl (Outer rest)
  | Inner [] => inl (Outer [])
  | Inner (l :: rest) =>
      if startswith l "@@" then
        match hunk_new_start l with
        | Some hunk_start =>
            let (hunk_lines, rest') := collect_hunk rest in
            match scan_hunk line_number hunk_lines hunk_start 1 with
            | Some position => inr (Some position)
            | None => inl (Inner rest')
            end
        | None => inl (Inner (l :: rest))
        end
      else if startswith l "diff --git" then inl (Outer (l :: rest))
      else inl (Inner rest)
  end.

(** At most [fuel] turns; [None] when the loops have not returned yet. *)
Fixpoint fdp_run (file_path : string) (line_number : Z) (fuel : nat)
    (st : fdp_state) : option (option Z) :=
  match fuel with
  | O => None
  | S fuel' =>
      match fdp_step file_path line_number st with
      | inr result => Some result
      | inl st' => fdp_run file_path line_number fuel' st'
      end
  end.

Definition find_diff_position (fuel : nat) (diff file_path : string)
    (line_number : Z) : option (option Z) :=
  fdp_run file_path line_number fuel (Outer (split_lines diff)).

(** ** [parse_diff_for_suggestions] *)

(** [c.isspace()] on code points below 256; [str.strip()] removes these. *)
Definition is_space (c : ascii) : bool :=
  let n := nat_of_ascii c in
  ((9 <=? n)%nat && (n <=? 13)%nat) || ((28 <=? n)%nat && (n <=? 32)%nat)
  || (n =? 133)%nat || (n =? 160)%nat.

Fixpoint lstrip (s : string) : string :=
  match s with
  | "" => ""
  | String c s' => if is_space c then lstrip s' else s
  end.

Fixpoint rstrip (s : string) : string :=
  match s with
  | "" => ""
  | String c s' =>
      match rstrip s' with
      | "" => if is_space c then "" else String c ""
      | r => String c r
      end
  end.

(** [s.strip()]. *)
Definition strip (s : string) : string := rstrip (lstrip s).

(** The variables of the [for line in lines] loop (lines 401-404). *)
Record pds_state : Type := mk_pds {
  hunk_start : option Z;
  suggestion_lines : list string;
  current_line : Z;
  line_num : Z
}.

Definition pds_init : pds_state :=
  {| hunk_start := None; suggestion_lines := []; current_line := 0;
     line_num := 0 |}.

(** The body of the loop (lines 406-422). *)
Definition pds_step (st : pds_state) (line : string) : pds_state :=
  if startswith line "@@" then
    match hunk_new_start line with
    | Some h =>
        {| hunk_start := Some h; suggestion_lines := suggestion_lines st;
           current_line := h; line_num := line_num st |}
    | None => st
    end
  else
    match hunk_start st with
    | None => st
    | Some _ =>
        if startswith line "+" then
          {| hunk_start := hunk_start st;
             suggestion_lines := suggestion_lines st ++ [drop 1 line];
             current_line := current_line st + 1;
             line_num := match suggestion_lines st with
                         | [] => current_line st
                         | _ :: _ => line_num st
                         end |}
        else if startswith line "-" then st
        else
          {| hunk_start := hunk_start st;
             suggestion_lines := suggestion_lines st;
             current_line := current_line st + 1;
             line_num := line_num st |}
    end.

(** Lines 398-425, on the list [lines] of line 397. *)
Definition parse_diff_lines (lines : list string)
    : option (string * Z * string) :=
  match lines with
  | [] => None
  | first :: _ =>
      if negb (startswith first "--- a/") then None
      else
        let file_path := drop 6 first in
        let st := fold_left pds_step lines pds_init in
        match suggestion_lines st with
        | [] => None
        | _ :: _ =>
            Some (file_path, line_num st, join_lines (suggestion_lines st))
        end
  end.

Definition parse_diff_for_suggestions (diff_text : string)
    : option (string * Z * string) :=
  parse_diff_lines (split_lines (strip diff_text)).

(** ** [parse_code_suggestions]: the fenced blocks *)

Definition fence_open : string := "```diff" ++ nl.
Definition fence_close : string := nl ++ "```".

(** [s.find(sub, start)] for [0 <= start]; [None] stands for [-1].
    [find_from sub rest pos] searches [rest = s[pos:]]. *)
Fixpoint find_from (sub rest : string) (pos : nat) : option nat :=
  if startswith rest sub then Some pos
  else match rest with
       | "" => None
       | String _ rest' => find_from sub rest' (S pos)
       end.

Definition find (s sub : string) (start : nat) : option nat :=
  if (start <=? String.length s)%nat then find_from sub (drop start s) start
  else None.

(** [s[a:b]] for [0 <= a <= b]. *)
Definition slice (s : string) (a b : nat) : string :=
  take (b - a) (drop a s).

(** The [while True] loop of lines 450-459, at most [fuel] turns: the
    final [diff_blocks], or [None] when the loop has not ended yet. *)
Fixpoint diff_blocks_loop (fuel : nat) (analysis : string)
    (start_pos : nat) (diff_blocks : list string) : option (list string) :=
  match fuel with
  | O => None
  | S fuel' =>
      match find analysis fence_open start_pos with
      | None => Some diff_blocks
      | Some start_pos' =>
          match find analysis fence_close (start_pos' + 8) with
          | None => Some diff_blocks
          | Some end_pos =>
              let diff_text := slice analysis (start_pos' + 8) end_pos in
              diff_blocks_loop fuel' analysis (end_pos + 4)
                (diff_blocks ++ [diff_text])
          end
      end
  end.

(** Lines 448-459.  Every turn moves [start_pos] forward, so the length
    of the text bounds the number of turns ([diff_blocks_loop_fenced]). *)
Definition extract_diff_blocks (analysis : string) : option (list string) :=
  diff_blocks_loop (S (String.length analysis)) analysis 0 [].

(** Lines 460-466.  The line is kept as the integer it is: [str(line)]
    is read back with [int(line)] by both consumers (lines 589, 725). *)
Definition parse_code_suggestions (analysis : string)
    : option (list (string * Z * string)) :=
  match extract_diff_blocks analysis with
  | None => None
  | Some diff_blocks =>
      Some (flat_map
              (fun diff_text =>
                 match parse_diff_for_suggestions diff_text with
                 | Some parsed => [parsed]
                 | None => []
                 end)
              diff_blocks)
  end.

(** ** [apply_suggestions_to_pr]: the per-file loop *)

(** One suggestion of a file's group (line 589): [(int(line), suggestion)]. *)
Definition edit : Type := (Z * string)%type.

(** [suggs.sort(key=lambda x: x[0])]: a stable sort on the line number.
    The result of a stable sort does not depend on the algorithm; this is
    insertion sort. *)
Fixpoint insert_by_line (e : edit) (sorted : list edit) : list edit :=
  match sorted with
  | [] => [e]
  | e' :: rest =>
      if fst e <=? fst e' then e :: sorted
      else e' :: insert_by_line e rest
  end.

Fixpoint sort_by_line (suggs : list edit) : list edit :=
  match suggs with
  | [] => []
  | e :: rest => insert_by_line e (sort_by_line rest)
  end.

Definition len {A : Type} (l : list A) : Z := Z.of_nat (List.length l).

(** A slice bound [k] as Python reads it on a list of length [n]:
    negative bounds count from the end, and the result is clipped to
    [0 .. n]. *)
Definition slice_bound (n : nat) (k : Z) : nat :=
  Z.to_nat (Z.min (Z.of_nat n) (Z.max 0 (if k <? 0 then Z.of_nat n + k else k))).

(** [l[:k]] and [l[k:]]. *)
Definition slice_to {A : Type} (l : list A) (k : Z) : list A :=
  firstn (slice_bound (List.length l) k) l.

Definition slice_from {A : Type} (l : list A) (k : Z) : list A :=
  skipn (slice_bound (List.length l) k) l.

(** The variables of the loop of lines 607-630.  [warnings] records the
    [logging.warning] calls of lines 615-617: the line number and the
    adjusted line of each suggestion reported out of bounds. *)
Record patch_state : Type := mk_patch {
  lines : list string;
  offset : Z;
  applied : bool;
  warnings : list (Z * Z)
}.

(** The body of the loop (lines 610-630). *)
Definition apply_one (st : patch_state) (e : edit) : patch_state :=
  let (line, suggestion) := e in
  let adjusted_line := line - 1 + offset st in
  if negb ((0 <=? adjusted_line) && (adjusted_line <? len (lines st))) then
    {| lines := lines st; offset := offset st; applied := applied st;
       warnings := warnings st ++ [(line, adjusted_line)] |}
  else
    let sugg_lines := split_lines suggestion in
    let num_old := 1 in
    let num_new := len sugg_lines in
    {| lines := slice_to (lines st) adjusted_line ++ sugg_lines
                ++ slice_from (lines st) (adjusted_line + num_old);
       offset := offset st + (num_new - num_old);
       applied := true;
       warnings := warnings st |}.

Definition patch_init (current_content : string) : patch_state :=
  {| lines := split_lines current_content; offset := 0; applied := false;
     warnings := [] |}.

(** Lines 602-630: the state after the loop. *)
Definition apply_suggestions (current_content : string) (suggs : list edit)
    : patch_state :=
  fold_left apply_one (sort_by_line suggs) (patch_init current_content).

(** Lines 632-633: the entry written to [changes] for the file, if any. *)
Definition file_change (current_content : string) (suggs : list edit)
    : option string :=
  let st := apply_suggestions current_content suggs in
  if applied st then Some (join_lines (lines st)) else None.

(** The content of the file after the batch: the entry of [changes] when
    there is one, the content as it was otherwise. *)
Definition new_content (current_content : string) (suggs : list edit)
    : string :=
  match file_change current_content suggs with
  | Some content => content
  | None => current_content
  end.

Definition test_diff : string :=
  "diff --git a/test.py b/test.py" ++ nl ++
  "@@ -1,3 +1,3 @@" ++ nl ++
  " old line 1" ++ nl ++
  "-old line 2" ++ nl ++
  "+new line 2" ++ nl ++
  " old line 3".

Definition test_block : string :=
  "--- a/test.py" ++ nl ++
  "+++ b/test.py" ++ nl ++
  "@@ -1,1 +1,1 @@" ++ nl ++
  "-old line" ++ nl ++
  "+new line".

Definition three_lines : string := "line 1" ++ nl ++ "line 2" ++ nl ++ "line 3".

(** * Reference notions

    The notions of the specification that the properties below are stated
    with. *)

(** No line feed in [s]: [s] is one line of a text. *)
Fixpoint one_line (s : string) : bool :=
  match s with
  | "" => true
  | String c s' => negb (Ascii.eqb c LF) && one_line s'
  end.


(** The first line of the section of a file in a diff. *)
Definition diff_git_header (old_path new_path : string) : string :=
  "diff --git a/" ++ old_path ++ " b/" ++ new_path.


(** A selected section with a line that starts with ["@@"] and is no hunk
    header. *)
Definition malformed_hunk_diff : string :=
  diff_git_header "f" "f" ++ nl ++ "@@ oops".

(** The change of the line count that applying edit [e] makes: the
    number of its replacement lines, minus the one line replaced. *)
Definition line_delta (e : edit) : Z := len (split_lines (snd e)) - 1.

Definition total_delta (suggs : list edit) : Z :=
  fold_right Z.add 0 (map line_delta suggs).

(** The line numbers of a batch are pairwise distinct and ascending. *)
Definition ascending (suggs : list edit) : Prop :=
  StronglySorted Z.lt (map fst suggs).

(** A non-empty list of single lines: what [split_lines] gives. *)
Definition proper_lines (ls : list string) : Prop :=
  ls <> [] /\ Forall (fun l => one_line l = true) ls.

(** A line that the loop of [parse_diff_for_suggestions] reads as an
    Added line once a hunk header has been seen. *)
Definition is_added (l : string) : bool := startswith l "+".

(** A line that the loop counts as a Context line once a hunk header has
    been seen: it starts with neither ["@@"], ["+"] nor ["-"]. *)
Definition is_context (l : string) : bool :=
  negb (startswith l "@@") && negb (startswith l "+")
  && negb (startswith l "-").

Definition count_context (ls : list string) : Z := len (filter is_context ls).

(** No line of [ls] is a hunk header. *)
Definition no_header (ls : list string) : Prop :=
  Forall (fun l => hunk_new_start l = None) ls.

(** No line of [ls] starts with ["+"]. *)
Definition no_added (ls : list string) : Prop :=
  Forall (fun l => is_added l = false) ls.

(** The replacement text of the Added lines among [ls]. *)
Definition added_text (ls : list string) : string :=
  join_lines (map (drop 1) (filter is_added ls)).

(** [s] has [m] at no place. *)
Definition absent (m s : string) : Prop :=
  forall pre post, s <> pre ++ m ++ post.

(** [s] is [pre], then its first [m], then [post]. *)
Definition first_split (m s pre post : string) : Prop :=
  s = pre ++ m ++ post
  /\ forall pre' post', s = pre' ++ m ++ post' ->
                        (String.length pre <= String.length pre')%nat.

(** The fenced blocks of a text, read from left to right: the text
    between a first start marker and the first end marker after it, then
    the blocks of what follows that end marker; none when there is no
    start marker, or no end marker after it. *)
Inductive fenced_blocks : string -> list string -> Prop :=
| fenced_none (s : string) :
    absent fence_open s -> fenced_blocks s []
| fenced_unterminated (s pre tail : string) :
    first_split fence_open s pre tail -> absent fence_close tail ->
    fenced_blocks s []
| fenced_block (s pre tail body rest : string) (blocks : list string) :
    first_split fence_open s pre tail ->
    first_split fence_close tail body rest ->
    fenced_blocks rest blocks ->
    fenced_blocks s (body :: blocks).

(** ** Unified diffs

    The data model of the specification, and the text of a diff. *)





























(** ** Hunk headers in standard form *)

Fixpoint all_digits (s : string) : bool :=
  match s with
  | "" => true
  | String c s' => is_digit c && all_digits s'
  end.

(** A decimal number as it stands in a hunk header. *)
Definition number (ds : string) : Prop := ds <> "" /\ all_digits ds = true.

Definition count_suffix (count : option string) : string :=
  match count with
  | Some ds => "," ++ ds
  | None => ""
  end.

(** [@@ -a[,b] +c[,d] @@], with what git puts after it. *)
Definition hunk_header_line (old_start : string) (old_count : option string)
    (new_start : string) (new_count : option string) (heading : string)
    : string :=
  "@@ -" ++ old_start ++ count_suffix old_count ++ " +" ++ new_start
  ++ count_suffix new_count ++ " @@" ++ heading.

(** No line starts with ["@@"] without matching the hunk pattern. *)
Definition no_stuck_line (ls : list string) : Prop :=
  Forall (fun l => startswith l "@@" = true -> hunk_new_start l <> None) ls.

(** What is left to read in a state of the loops of
    [find_diff_position]; handing over from the inner loop to the outer
    one counts as a step. *)
Definition fdp_lines (st : fdp_state) : list string :=
  match st with
  | Outer rest | Inner rest => rest
  end.

Definition fdp_measure (st : fdp_state) : nat :=
  match st with
  | Outer rest => 2 * List.length rest
  | Inner rest => 2 * List.length rest + 1
  end.

(** ** Replacing lines at once

    What a batch asks for, read on the original file: every line that
    is the target of an edit gives way to the lines of that edit, every
    other line stays. *)

(** The replacement that [suggs] has for line [k], if any. *)
Definition replacement_for (suggs : list edit) (k : Z) : option string :=
  option_map snd (List.find (fun e => fst e =? k) suggs).

(** The lines [orig], numbered from [k], with the targets replaced. *)
Fixpoint replace_numbered (suggs : list edit) (k : Z) (orig : list string)
    : list string :=
  match orig with
  | [] => []
  | l :: orig' =>
      (match replacement_for suggs k with
       | Some suggestion => split_lines suggestion
       | None => [l]
       end ++ replace_numbered suggs (k + 1) orig')%list
  end.

(** ** Suggestion blocks

    A block as the prompt of [load_config] asks the model for it and as
    the test gives it: the two path lines, a hunk header, the lines to
    remove and the lines to add. *)
Definition suggestion_block (file_path hunk_header : string)
    (removed added : list string) : string :=
  join_lines (("--- a/" ++ file_path) :: ("+++ b/" ++ file_path)
              :: hunk_header
              :: (map (append "-") removed ++ map (append "+") added)%list).

(** What a parsed block adds to the list of suggestions (lines 462-465). *)
Definition kept_suggestion (parsed : option (string * Z * string))
    : list (string * Z * string) :=
  match parsed with
  | Some suggestion => [suggestion]
  | None => []
  end.

(** ** [update_main_comment] *)

(** ["### Code Suggestions\n"], 21 characters. *)
Definition suggestions_heading : string := "### Code Suggestions" ++ nl.

(** The text put in the place of the section (line 711). *)
Definition inline_notice : string :=
  "### Code Suggestions" ++ nl
  ++ "- Suggestions posted as inline comments below." ++ nl.

(** Lines 703-713. *)
Definition update_main_comment (analysis : string) : string :=
  match find analysis suggestions_heading 0 with
  | None => analysis
  | Some start_pos =>
      let end_pos :=
        match find analysis "###" (start_pos + 21) with
        | Some end_pos => end_pos
        | None => String.length analysis
        end in
      take start_pos analysis ++ inline_notice ++ drop end_pos analysis
  end.

(** The character [c] is not in [s]. *)
Fixpoint without_char (c : ascii) (s : string) : bool :=
  match s with
  | "" => true
  | String d s' => negb (Ascii.eqb c d) && without_char c s'
  end.

(** ** [sanitize_text] (nested in [analyze_with_gemini], lines 329-343) *)

(** The lower-case letter of an ASCII capital; with [re.IGNORECASE] and
    code points below 256, a letter of a pattern matches itself and its
    capital only. *)
Definition lower_letter (c : ascii) : ascii :=
  let n := nat_of_ascii c in
  if (65 <=? n)%nat && (n <=? 90)%nat then ascii_of_nat (n + 32) else c.

(** [s] starts with [p], a text without capitals, whatever the case of
    the letters of [s]. *)
Fixpoint startswith_nocase (s p : string) {struct p} : bool :=
  match p with
  | "" => true
  | String c p' =>
      match s with
      | "" => false
      | String d s' => Ascii.eqb c (lower_letter d) && startswith_nocase s' p'
      end
  end.

(** [\w] on code points below 256. *)
Definition is_word (c : ascii) : bool :=
  let n := nat_of_ascii c in
  ((48 <=? n) && (n <=? 57) || (65 <=? n) && (n <=? 90) || (n =? 95)
   || (97 <=? n) && (n <=? 122) || (n =? 170) || (178 <=? n) && (n <=? 179)
   || (n =? 181) || (185 <=? n) && (n <=? 186) || (188 <=? n) && (n <=? 190)
   || (192 <=? n) && (n <=? 214) || (216 <=? n) && (n <=? 246)
   || (248 <=? n) && (n <=? 255))%nat.

(** The number of characters before the first [">"] of [s]. *)
Fixpoint until_gt (s : string) : option nat :=
  match s with
  | "" => None
  | String c s' =>
      if Ascii.eqb c ">" then Some O else option_map S (until_gt s')
  end.

(** The length of the longest start of [s] whose characters are in the
    class [cl]. *)
Fixpoint span_length (cl : ascii -> bool) (s : string) : nat :=
  match s with
  | "" => O
  | String c s' => if cl c then S (span_length cl s') else O
  end.

(** The patterns of lines 334-338, each as the length of its match at
    the start of [s], if it matches there.  No pattern matches the empty
    text, and none needs backtracking: the classes that follow one
    another in a pattern have no character in common. *)

(** [</?script[^>]*>] with [re.IGNORECASE]. *)
Definition match_script (s : string) : option nat :=
  match s with
  | String "<" s1 =>
      let slash := if startswith s1 "/" then 1%nat else 0%nat in
      let s2 := drop slash s1 in
      if startswith_nocase s2 "script" then
        match until_gt (drop 6 s2) with
        | Some k => Some (1 + slash + 6 + k + 1)%nat
        | None => None
        end
      else None
  | _ => None
  end.

(** [<[^>]+>]. *)
Definition match_tag (s : string) : option nat :=
  match s with
  | String "<" s1 =>
      match until_gt s1 with
      | Some (S k) => Some (1 + S k + 1)%nat
      | _ => None
      end
  | _ => None
  end.

(** [javascript:] with [re.IGNORECASE]. *)
Definition match_javascript (s : string) : option nat :=
  if startswith_nocase s "javascript:" then Some 11%nat else None.

(** [on\w+\s*=] with [re.IGNORECASE]. *)
Definition match_handler (s : string) : option nat :=
  if startswith_nocase s "on" then
    let s1 := drop 2 s in
    let w := span_length is_word s1 in
    let sp := span_length is_space (drop w s1) in
    match w with
    | O => None
    | S _ =>
        if startswith (drop (w + sp) s1) "=" then Some (2 + w + sp + 1)%nat
        else None
    end
  else None.

(** [re.sub(pattern, "", s)] for a pattern given by [match_at]: the
    matches are looked for from left to right and taken out; the search
    goes on after a match.  [skip] counts the characters of a match that
    are still to be taken out. *)
Fixpoint re_sub_from (match_at : string -> option nat) (skip : nat)
    (s : string) : string :=
  match s with
  | "" => ""
  | String c s' =>
      match skip with
      | S skip' => re_sub_from match_at skip' s'
      | O =>
          match match_at s with
          | Some (S n) => re_sub_from match_at n s'
          | _ => String c (re_sub_from match_at O s')
          end
      end
  end.

Definition re_sub (match_at : string -> option nat) (s : string) : string :=
  re_sub_from match_at O s.

Definition truncation_mark : string := "... (truncated for length)".

(** The limit of line 341. *)
Definition max_length : nat := Z.to_nat 10000.

(** Lines 341-342. *)
Definition limit_length (text : string) : string :=
  if (max_length <? String.length text)%nat
  then take max_length text ++ truncation_mark
  else text.

Definition sanitize_text (text : string) : string :=
  match text with
  | "" => text
  | _ =>
      let text := re_sub match_script text in
      let text := re_sub match_tag text in
      let text := re_sub match_javascript text in
      let text := re_sub match_handler text in
      let text := limit_length text in
      strip text
  end.


(** Every character of [s] is in the class [cl]. *)
Fixpoint all_chars (cl : ascii -> bool) (s : string) : bool :=
  match s with
  | "" => true
  | String c s' => cl c && all_chars cl s'
  end.

(** Neither ["<"] nor [">"]. *)
Definition not_angle (c : ascii) : bool :=
  negb (Ascii.eqb c "<") && negb (Ascii.eqb c ">").

(** No ["<"] of [s] opens a tag: each one is followed at once by [">"],
    or by no [">"] at all. *)
Fixpoint tag_free (s : string) : bool :=
  match s with
  | "" => true
  | String c s' =>
      (negb (Ascii.eqb c "<") || startswith s' ">" || without_char ">" s')
      && tag_free s'
  end.


(** ** [verify_webhook_signature] (lines 748-769) *)

Inductive exception : Type := ValueError | TypeError.

(** What a call comes to: a value, or an exception. *)
Inductive outcome (A : Type) : Type :=
| Returned (a : A)
| Raised (e : exception).

Arguments Returned {A} a.
Arguments Raised {A} e.

(** [s.split(sep, 1)]. *)
Definition split_once (s sep : string) : list string :=
  match find s sep 0 with
  | None => [s]
  | Some i => [take i s; drop (i + String.length sep) s]
  end.

(** [c.encode()], UTF-8, for a code point below 256: one byte below 128,
    two bytes from there on. *)
Definition encode_char (c : ascii) : list Byte.byte :=
  let n := nat_of_ascii c in
  if (n <? 128)%nat then [byte_of_ascii c]
  else [byte_of_ascii (ascii_of_nat (192 + n / 64));
        byte_of_ascii (ascii_of_nat (128 + n mod 64))].

(** [s.encode()]. *)
Fixpoint encode (s : string) : list Byte.byte :=
  match s with
  | "" => []
  | String c s' => (encode_char c ++ encode s')%list
  end.

(** The hexadecimal digit of [n < 16], in lower case. *)
Definition hex_digit (n : nat) : ascii :=
  ascii_of_nat (if (n <? 10)%nat then 48 + n else 87 + n).

(** [hexdigest()] of a digest: two hexadecimal digits for every byte. *)
Fixpoint hexdigest (digest : list Byte.byte) : string :=
  match digest with
  | [] => ""
  | b :: digest' =>
      let n := nat_of_ascii (ascii_of_byte b) in
      String (hex_digit (n / 16)) (String (hex_digit (n mod 16))
                                     (hexdigest digest'))
  end.

(** A code point below 128. *)
Definition is_ascii (c : ascii) : bool := (nat_of_ascii c <? 128)%nat.

(** [hmac.compare_digest(a, b)] on two texts: a [TypeError] unless both
    are ASCII, and then whether they are equal. *)
Definition compare_digest (a b : string) : outcome bool :=
  if all_chars is_ascii a && all_chars is_ascii b
  then Returned (String.eqb a b)
  else Raised TypeError.

Section Webhook.

(** [hmac.new(key, msg=msg, digestmod=hashlib.sha256).digest()]; the
    function itself is left open. *)
Variable hmac_sha256 : list Byte.byte -> list Byte.byte -> list Byte.byte.

(** [signature] and [secret] are [None] when the header or the variable
    of the environment is missing. *)
Definition verify_webhook_signature (payload : list Byte.byte)
    (signature secret : option string) : outcome bool :=
  match signature, secret with
  | Some (String _ _ as signature), Some (String _ _ as secret) =>
      match split_once signature "=" with
      | [sha_name; sig] =>
          if negb (String.eqb sha_name "sha256") then Returned false
          else
            let mac := hmac_sha256 (encode secret) payload in
            compare_digest (hexdigest mac) sig
      | _ => Raised ValueError
      end
  | _, _ => Returned false
  end.

End Webhook.


(** ** [apply_suggestions_to_pr] (lines 571-646) *)

(** A [dict] with texts as keys, in the order in which the keys were
    first set. *)
Section Dict.

Context {V : Type}.

(** [d.get(k)]. *)
Fixpoint dict_get (d : list (string * V)) (k : string) : option V :=
  match d with
  | [] => None
  | (k', v) :: d' => if String.eqb k' k then Some v else dict_get d' k
  end.

(** [d[k] = v]. *)
Fixpoint dict_set (d : list (string * V)) (k : string) (v : V)
    : list (string * V) :=
  match d with
  | [] => [(k, v)]
  | (k', v') :: d' =>
      if String.eqb k' k then (k, v) :: d' else (k', v') :: dict_set d' k v
  end.

End Dict.

(** [suggestion_groups[file_path].append(e)] on a [defaultdict(list)]
    (line 589); [int(line)] there reads back the number that
    [parse_code_suggestions] wrote with [str(line)]. *)
Definition group_append (groups : list (string * list edit))
    (file_path : string) (e : edit) : list (string * list edit) :=
  let group :=
    match dict_get groups file_path with
    | Some group => group
    | None => []
    end in
  dict_set groups file_path (group ++ [e])%list.

(** Lines 587-589. *)
Definition suggestion_groups (suggestions : list (string * Z * string))
    : list (string * list edit) :=
  fold_left
    (fun groups s => group_append groups (fst (fst s)) (snd (fst s), snd s))
    suggestions [].

Section Repository.

(** [repo.get_contents(file_path, ref=pr.head.sha)], decoded; [None]
    when the call or the decoding raises (lines 595-600). *)
Variable get_contents : string -> option string.

Definition current_content (file_path : string) : string :=
  match get_contents file_path with
  | Some content => content
  | None => ""
  end.

(** Lines 592-633: [changes] after the loop over the groups. *)
Definition changes (suggestions : list (string * Z * string))
    : list (string * string) :=
  fold_left
    (fun changes g =>
       match file_change (current_content (fst g)) (snd g) with
       | Some content => dict_set changes (fst g) content
       | None => changes
       end)
    (suggestion_groups suggestions) [].

End Repository.

(** The edits that [suggestions] has for [file_path], in their order. *)
Definition edits_for (file_path : string)
    (suggestions : list (string * Z * string)) : list edit :=
  map (fun s => (snd (fst s), snd s))
    (filter (fun s => String.eqb (fst (fst s)) file_path) suggestions).


(** ** White space at the ends of a text *)

(** [core] is [s] without the white space at its two ends: [s] is
    [core] between two runs of white space, and [core] neither starts nor
    ends with white space. *)
Definition trimmed (s core : string) : Prop :=
  exists lead trail,
    s = lead ++ core ++ trail
    /\ all_chars is_space lead = true /\ all_chars is_space trail = true
    /\ (forall c r, core = String c r -> is_space c = false)
    /\ (forall r c, core = r ++ String c "" -> is_space c = false).

(** A block with an empty line before its header and blanks after its
    last line. *)
Definition padded_block : string :=
  nl ++ "--- a/f" ++ nl ++ "@@ -1 +1 @@" ++ nl ++ "+y  ".

(** * Properties *)

(** ** Strings *)

Section StringFacts.

Lemma append_nil_r (s : string) : s ++ "" = s.
Proof. induction s as [|c s IH]; simpl; [reflexivity | now rewrite IH]. Qed.

Lemma append_assoc (a b c : string) : (a ++ b) ++ c = a ++ (b ++ c).
Proof. induction a as [|x a IH]; simpl; [reflexivity | now rewrite IH]. Qed.

Lemma length_append (a b : string) :
  String.length (a ++ b) = (String.length a + String.length b)%nat.
Proof. induction a as [|x a IH]; simpl; [reflexivity | now rewrite IH]. Qed.

Lemma startswith_append (p r : string) : startswith (p ++ r) p = true.
Proof.
  induction p as [|c p IH]; simpl; [reflexivity|].
  now rewrite Ascii.eqb_refl, IH.
Qed.

Lemma startswith_split (s p : string) :
  startswith s p = true -> s = p ++ drop (String.length p) s.
Proof.
  revert s. induction p as [|c p IH]; intros s H; simpl in *.
  - now destruct s.
  - destruct s as [|d s]; [discriminate|].
    apply andb_true_iff in H. destruct H as [Hc Hp].
    apply Ascii.eqb_eq in Hc. subst d. simpl. f_equal. now apply IH.
Qed.

Lemma startswith_iff (s p : string) :
  startswith s p = true <-> exists r, s = p ++ r.
Proof.
  split.
  - intros H. eexists. now apply startswith_split.
  - intros [r ->]. apply startswith_append.
Qed.

Lemma drop_append (p r : string) : drop (String.length p) (p ++ r) = r.
Proof. induction p as [|c p IH]; simpl; [now destruct r | exact IH]. Qed.

Lemma startswith_contains (p s : string) :
  startswith s p = true -> contains p s = true.
Proof. intros H. destruct s; simpl; now rewrite H. Qed.

Lemma contains_iff (p s : string) :
  contains p s = true <-> exists pre post, s = pre ++ p ++ post.
Proof.
  split.
  - induction s as [|c s IH]; simpl; intros H.
    + rewrite orb_false_r in H. apply startswith_iff in H.
      destruct H as [r Hr]. now exists "", r.
    + apply orb_true_iff in H. destruct H as [H|H].
      * apply startswith_iff in H. destruct H as [r Hr]. now exists "", r.
      * destruct (IH H) as (pre & post & ->). now exists (String c pre), post.
  - intros (pre & post & ->). induction pre as [|c pre IH].
    + change ("" ++ p ++ post) with (p ++ post).
      apply startswith_contains, startswith_append.
    + simpl. rewrite IH. apply orb_true_r.
Qed.

Lemma split_lines_not_nil (s : string) : split_lines s <> [].
Proof.
  induction s as [|c s IH]; simpl; [discriminate|].
  destruct (Ascii.eqb c LF); [discriminate|].
  destruct (split_lines s); discriminate.
Qed.

Lemma join_lines_cons (l : string) (ls : list string) :
  ls <> [] -> join_lines (l :: ls) = l ++ nl ++ join_lines ls.
Proof. destruct ls; [congruence | reflexivity]. Qed.

(** [split] undoes [join], and [join] undoes [split]. *)
Lemma join_split_lines (s : string) : join_lines (split_lines s) = s.
Proof.
  induction s as [|c s IH]; [reflexivity|].
  simpl split_lines. destruct (Ascii.eqb c LF) eqn:E.
  - apply Ascii.eqb_eq in E. subst c.
    rewrite join_lines_cons by apply split_lines_not_nil.
    simpl. now rewrite IH.
  - pose proof (split_lines_not_nil s) as Hne.
    destruct (split_lines s) as [|l ls]; [congruence|].
    rewrite <- IH. destruct ls; reflexivity.
Qed.

Lemma split_lines_one_line (s : string) :
  one_line s = true -> split_lines s = [s].
Proof.
  induction s as [|c s IH]; simpl; [reflexivity|].
  intros H. apply andb_true_iff in H. destruct H as [Hc Hs].
  apply negb_true_iff in Hc. rewrite Hc, (IH Hs). reflexivity.
Qed.

Lemma split_lines_append (l rest : string) :
  one_line l = true ->
  split_lines (l ++ nl ++ rest) = l :: split_lines rest.
Proof.
  induction l as [|c l IH]; simpl; intros H; [reflexivity|].
  apply andb_true_iff in H. destruct H as [Hc Hl].
  apply negb_true_iff in Hc. rewrite Hc.
  simpl in IH. now rewrite (IH Hl).
Qed.

Lemma split_join_lines (ls : list string) :
  ls <> [] -> Forall (fun l => one_line l = true) ls ->
  split_lines (join_lines ls) = ls.
Proof.
  induction ls as [|l ls IH]; [congruence|]. intros _ H.
  inversion H as [|? ? Hl Hls]; subst.
  destruct ls as [|l' ls].
  - simpl. now apply split_lines_one_line.
  - rewrite join_lines_cons by discriminate.
    rewrite split_lines_append by exact Hl.
    f_equal. apply IH; [discriminate | exact Hls].
Qed.

Lemma split_lines_all_one_line (s : string) :
  Forall (fun l => one_line l = true) (split_lines s).
Proof.
  induction s as [|c s IH]; simpl; [repeat constructor|].
  destruct (Ascii.eqb c LF) eqn:E; [constructor; [reflexivity | exact IH]|].
  destruct (split_lines s) as [|l ls]; [repeat constructor; simpl; now rewrite E|].
  inversion IH; subst. constructor; [simpl; now rewrite E | assumption].
Qed.

End StringFacts.

(** ** Running the loops of [find_diff_position] *)

Section Running.

Variable file_path : string.
Variable line_number : Z.

Let run := fdp_run file_path line_number.

(** More fuel does not change a result. *)
Lemma fdp_run_more (fuel fuel' : nat) (st : fdp_state) (r : option Z) :
  (fuel <= fuel')%nat -> run fuel st = Some r -> run fuel' st = Some r.
Proof.
  revert fuel' st. induction fuel as [|fuel IH]; intros fuel' st Hle H.
  - discriminate.
  - destruct fuel' as [|fuel']; [lia|]. unfold run in *. simpl in *.
    destruct (fdp_step file_path line_number st) as [st'|res].
    + apply IH; [lia | exact H].
    + exact H.
Qed.





(** A line that starts with ["@@"] and does not match the pattern holds
    the inner loop forever: [i] is not advanced. *)
Lemma fdp_run_stuck (l : string) (rest : list string) (fuel : nat) :
  startswith l "@@" = true -> hunk_new_start l = None ->
  run fuel (Inner (l :: rest)) = None.
Proof.
  intros Hat Hno. induction fuel as [|fuel IH]; [reflexivity|].
  unfold run in *. cbn [fdp_run fdp_step]. now rewrite Hat, Hno.
Qed.

End Running.

(** ** C6: which section is scanned *)




(** ** C7: termination *)

(** C7 (fails on the code): on a selected section with a line that starts
    with ["@@"] and is no hunk header, no number of turns makes
    [find_diff_position] return, whatever the target line. *)
Theorem find_diff_position_never_returns (fuel : nat) (line_number : Z) :
  find_diff_position fuel malformed_hunk_diff "f" line_number = None.
Proof.
  unfold find_diff_position.
  change (split_lines malformed_hunk_diff)
    with ["diff --git a/f b/f"; "@@ oops"].
  destruct fuel as [|fuel]; [reflexivity|].
  change (fdp_run "f" line_number (S fuel)
            (Outer ["diff --git a/f b/f"; "@@ oops"]))
    with (fdp_run "f" line_number fuel (Inner ["@@ oops"])).
  now apply fdp_run_stuck.
Qed.

(** ** The patch loop *)

Section Slices.

Context {A : Type}.

Lemma slice_to_in_bounds (l : list A) (k : Z) :
  0 <= k <= len l -> slice_to l k = firstn (Z.to_nat k) l.
Proof.
  intros H. unfold slice_to, slice_bound, len in *.
  destruct (Z.ltb_spec k 0); [lia|]. f_equal. lia.
Qed.

Lemma slice_from_in_bounds (l : list A) (k : Z) :
  0 <= k <= len l -> slice_from l k = skipn (Z.to_nat k) l.
Proof.
  intros H. unfold slice_from, slice_bound, len in *.
  destruct (Z.ltb_spec k 0); [lia|]. f_equal. lia.
Qed.

Lemma split_at (l : list A) (a : nat) :
  (a < List.length l)%nat ->
  exists x, l = (firstn a l ++ x :: skipn (S a) l)%list
            /\ List.length (firstn a l) = a.
Proof.
  revert a. induction l as [|y l IH]; intros a H; simpl in H; [lia|].
  destruct a as [|a].
  - exists y. now split.
  - destruct (IH a) as (x & Hx & Hlen); [lia|].
    exists x. split; [|simpl; now rewrite Hlen].
    change (y :: l = y :: (firstn a l ++ x :: skipn (S a) l)%list).
    f_equal. exact Hx.
Qed.

End Slices.

Section PatchLoop.

(** An edit whose adjusted line is within the file replaces the one line
    there. *)
Lemma apply_one_in_bounds (st : patch_state) (line : Z) (suggestion : string) :
  0 <= line - 1 + offset st < len (lines st) ->
  apply_one st (line, suggestion) =
  {| lines := (firstn (Z.to_nat (line - 1 + offset st)) (lines st)
               ++ split_lines suggestion
               ++ skipn (S (Z.to_nat (line - 1 + offset st))) (lines st))%list;
     offset := offset st + (len (split_lines suggestion) - 1);
     applied := true;
     warnings := warnings st |}.
Proof.
  intros H. unfold apply_one.
  destruct (Z.leb_spec 0 (line - 1 + offset st)); [|lia].
  destruct (Z.ltb_spec (line - 1 + offset st) (len (lines st))); [|lia].
  cbn [andb negb].
  rewrite slice_to_in_bounds, slice_from_in_bounds by lia.
  replace (Z.to_nat (line - 1 + offset st + 1))
    with (S (Z.to_nat (line - 1 + offset st))) by lia.
  reflexivity.
Qed.

(** An edit whose adjusted line is outside the file is only reported. *)
Lemma apply_one_out_of_bounds (st : patch_state) (line : Z)
    (suggestion : string) :
  ~ (0 <= line - 1 + offset st < len (lines st)) ->
  apply_one st (line, suggestion) =
  {| lines := lines st; offset := offset st; applied := applied st;
     warnings := (warnings st ++ [(line, line - 1 + offset st)])%list |}.
Proof.
  intros H. unfold apply_one.
  destruct (Z.leb_spec 0 (line - 1 + offset st));
    destruct (Z.ltb_spec (line - 1 + offset st) (len (lines st)));
    cbn [andb negb]; try reflexivity; lia.
Qed.

Lemma apply_one_cases (st : patch_state) (e : edit) :
  (lines (apply_one st e) = lines st /\ applied (apply_one st e) = applied st
   /\ List.length (warnings (apply_one st e)) = S (List.length (warnings st)))
  \/ (len (lines (apply_one st e)) = len (lines st) + line_delta e
      /\ applied (apply_one st e) = true
      /\ warnings (apply_one st e) = warnings st).
Proof.
  destruct e as [line suggestion].
  destruct (Z.le_gt_cases 0 (line - 1 + offset st)) as [H0|H0];
    [destruct (Z.lt_ge_cases (line - 1 + offset st) (len (lines st)))
       as [H1|H1]|].
  - right. rewrite apply_one_in_bounds by lia. cbn [lines applied warnings].
    repeat split. unfold line_delta, len in *. cbn [snd].
    rewrite !length_app, length_skipn, length_firstn. lia.
  - left. rewrite apply_one_out_of_bounds by lia.
    cbn [lines applied warnings]. rewrite length_app. simpl.
    repeat split. lia.
  - left. rewrite apply_one_out_of_bounds by lia.
    cbn [lines applied warnings]. rewrite length_app. simpl.
    repeat split. lia.
Qed.

(** Reports are never withdrawn. *)
Lemma warnings_grow (suggs : list edit) (st : patch_state) :
  (List.length (warnings st)
   <= List.length (warnings (fold_left apply_one suggs st)))%nat.
Proof.
  revert st. induction suggs as [|e suggs IH]; intros st; simpl; [lia|].
  specialize (IH (apply_one st e)).
  destruct (apply_one_cases st e) as [(_ & _ & H)|(_ & _ & H)];
    rewrite ?H in IH; lia.
Qed.

Lemma warnings_bound (suggs : list edit) (st : patch_state) :
  (List.length (warnings (fold_left apply_one suggs st))
   <= List.length (warnings st) + List.length suggs)%nat.
Proof.
  revert st. induction suggs as [|e suggs IH]; intros st; simpl; [lia|].
  specialize (IH (apply_one st e)).
  destruct (apply_one_cases st e) as [(_ & _ & H)|(_ & _ & H)];
    rewrite ?H in IH; lia.
Qed.

Lemma applied_stays (suggs : list edit) (st : patch_state) :
  applied st = true -> applied (fold_left apply_one suggs st) = true.
Proof.
  revert st. induction suggs as [|e suggs IH]; intros st H; simpl; [exact H|].
  apply IH.
  destruct (apply_one_cases st e) as [(_ & Ha & _)|(_ & Ha & _)];
    congruence.
Qed.

(** When nothing is reported, every edit of the batch has changed the
    line count by its own delta. *)
Lemma line_count_no_warning (suggs : list edit) (st : patch_state) :
  warnings (fold_left apply_one suggs st) = warnings st ->
  len (lines (fold_left apply_one suggs st))
  = len (lines st) + total_delta suggs.
Proof.
  revert st. induction suggs as [|e suggs IH]; intros st H.
  - unfold total_delta. simpl. lia.
  - simpl in H. pose proof (warnings_grow suggs (apply_one st e)) as Hg.
    destruct (apply_one_cases st e) as [(_ & _ & Hw)|(Hl & _ & Hw)].
    + rewrite H in Hg. lia.
    + simpl fold_left. rewrite IH by congruence.
      rewrite Hl. unfold total_delta. simpl. lia.
Qed.

(** The flag is still down exactly when every edit has been reported. *)
Lemma not_applied_iff (suggs : list edit) (st : patch_state) :
  applied st = false ->
  (applied (fold_left apply_one suggs st) = false <->
   List.length (warnings (fold_left apply_one suggs st))
   = (List.length (warnings st) + List.length suggs)%nat).
Proof.
  revert st. induction suggs as [|e suggs IH]; intros st H; simpl.
  - split; [lia | now intros _].
  - destruct (apply_one_cases st e) as [(_ & Ha & Hw)|(_ & Ha & Hw)].
    + rewrite IH by congruence. rewrite Hw. lia.
    + rewrite (applied_stays suggs _ Ha).
      pose proof (warnings_bound suggs (apply_one st e)) as Hb.
      rewrite Hw in Hb. split; [discriminate | lia].
Qed.

Lemma not_applied_lines (suggs : list edit) (st : patch_state) :
  applied (fold_left apply_one suggs st) = false ->
  lines (fold_left apply_one suggs st) = lines st.
Proof.
  revert st. induction suggs as [|e suggs IH]; intros st H; simpl;
    [reflexivity|].
  simpl in H.
  destruct (apply_one_cases st e) as [(Hl & _ & _)|(_ & Ha & _)].
  - rewrite IH by exact H. exact Hl.
  - rewrite (applied_stays suggs _ Ha) in H. discriminate.
Qed.

Lemma apply_one_proper (st : patch_state) (e : edit) :
  proper_lines (lines st) -> proper_lines (lines (apply_one st e)).
Proof.
  intros [Hne Hall]. destruct e as [line suggestion]. unfold apply_one.
  destruct (negb _); cbn [lines]; [now split|]. split.
  - pose proof (split_lines_not_nil suggestion).
    destruct (slice_to _ _); simpl; [|discriminate].
    destruct (split_lines suggestion); [congruence | discriminate].
  - rewrite !Forall_app. repeat split.
    + unfold slice_to.
      rewrite <- (firstn_skipn (slice_bound (List.length (lines st))
                                  (line - 1 + offset st)) (lines st))
        in Hall. apply Forall_app in Hall. apply Hall.
    + apply split_lines_all_one_line.
    + unfold slice_from.
      rewrite <- (firstn_skipn (slice_bound (List.length (lines st))
                                  (line - 1 + offset st + 1)) (lines st))
        in Hall. apply Forall_app in Hall. apply Hall.
Qed.

Lemma fold_apply_one_proper (suggs : list edit) (st : patch_state) :
  proper_lines (lines st) ->
  proper_lines (lines (fold_left apply_one suggs st)).
Proof.
  revert st. induction suggs as [|e suggs IH]; intros st H; simpl;
    [exact H|].
  apply IH, apply_one_proper, H.
Qed.

Lemma apply_suggestions_proper (content : string) (suggs : list edit) :
  proper_lines (lines (apply_suggestions content suggs)).
Proof.
  apply fold_apply_one_proper. split.
  - apply split_lines_not_nil.
  - apply split_lines_all_one_line.
Qed.

End PatchLoop.

(** ** Sorting the batch *)

Section Sorting.

Lemma insert_by_line_perm (e : edit) (l : list edit) :
  Permutation (insert_by_line e l) (e :: l).
Proof.
  induction l as [|e' l IH]; simpl; [apply Permutation_refl|].
  destruct (fst e <=? fst e'); [apply Permutation_refl|].
  eapply perm_trans; [apply perm_skip, IH | apply perm_swap].
Qed.

Lemma sort_by_line_perm (l : list edit) : Permutation (sort_by_line l) l.
Proof.
  induction l as [|e l IH]; simpl; [constructor|].
  eapply perm_trans; [apply insert_by_line_perm | now apply perm_skip].
Qed.

Lemma insert_by_line_sorted (e : edit) (l : list edit) :
  StronglySorted Z.le (map fst l) ->
  StronglySorted Z.le (map fst (insert_by_line e l)).
Proof.
  induction l as [|e' l IH]; intros H; simpl.
  - repeat constructor.
  - apply StronglySorted_inv in H. destruct H as [Hl He'].
    destruct (Z.leb_spec (fst e) (fst e')) as [Hle|Hgt]; simpl.
    + constructor; [constructor; assumption|].
      constructor; [exact Hle|].
      eapply Forall_impl; [|exact He']. intros k Hk. simpl in Hk. lia.
    + constructor; [now apply IH|].
      apply (Permutation_Forall
               (Permutation_sym
                  (Permutation_map fst (insert_by_line_perm e l)))).
      simpl. constructor; [lia | exact He'].
Qed.

Lemma sort_by_line_sorted (l : list edit) :
  StronglySorted Z.le (map fst (sort_by_line l)).
Proof.
  induction l as [|e l IH]; simpl; [constructor|].
  now apply insert_by_line_sorted.
Qed.

(** A batch that is ascending already is left as it is. *)
Lemma sort_by_line_ascending (l : list edit) :
  ascending l -> sort_by_line l = l.
Proof.
  unfold ascending. induction l as [|e l IH]; intros H; [reflexivity|].
  simpl in H. apply StronglySorted_inv in H. destruct H as [Hl He].
  simpl. rewrite (IH Hl). destruct l as [|e' l]; [reflexivity|].
  simpl. inversion He as [|? ? Hlt _]; subst.
  destruct (Z.leb_spec (fst e) (fst e')); [reflexivity | lia].
Qed.

Lemma sorted_nodup_ascending (ks : list Z) :
  StronglySorted Z.le ks -> NoDup ks -> StronglySorted Z.lt ks.
Proof.
  induction ks as [|k ks IH]; intros Hs Hn; [constructor|].
  apply StronglySorted_inv in Hs. destruct Hs as [Hs Hk].
  inversion Hn as [|? ? Hnotin Hn']; subst.
  constructor; [now apply IH|].
  rewrite Forall_forall in *. intros x Hx.
  specialize (Hk x Hx). assert (x <> k) by (intros ->; contradiction). lia.
Qed.

(** There is one ascending order of a batch. *)
Lemma ascending_unique (l1 l2 : list edit) :
  ascending l1 -> ascending l2 -> Permutation l1 l2 -> l1 = l2.
Proof.
  unfold ascending. revert l2.
  induction l1 as [|a l1 IH]; intros l2 H1 H2 Hp.
  - apply Permutation_nil in Hp. now subst.
  - destruct l2 as [|b l2];
      [apply Permutation_sym, Permutation_nil in Hp; discriminate|].
    simpl in H1, H2.
    apply StronglySorted_inv in H1. destruct H1 as [H1 Ha].
    apply StronglySorted_inv in H2. destruct H2 as [H2 Hb].
    rewrite Forall_forall in Ha, Hb.
    assert (a = b) as ->.
    { assert (In a (b :: l2)) as Hina
        by (apply (Permutation_in _ Hp); now left).
      assert (In b (a :: l1)) as Hinb
        by (apply (Permutation_in _ (Permutation_sym Hp)); now left).
      destruct Hina as [->|Hina]; [reflexivity|].
      destruct Hinb as [->|Hinb]; [reflexivity|].
      specialize (Ha (fst b) (in_map fst _ _ Hinb)).
      specialize (Hb (fst a) (in_map fst _ _ Hina)). lia. }
    f_equal. apply IH; try assumption.
    now apply Permutation_cons_inv with b.
Qed.

Lemma sort_by_line_distinct (l : list edit) :
  NoDup (map fst l) -> ascending (sort_by_line l).
Proof.
  intros H. apply sorted_nodup_ascending; [apply sort_by_line_sorted|].
  apply (Permutation_NoDup
           (Permutation_sym (Permutation_map fst (sort_by_line_perm l)))).
  exact H.
Qed.

Lemma total_delta_perm (l1 l2 : list edit) :
  Permutation l1 l2 -> total_delta l1 = total_delta l2.
Proof.
  unfold total_delta. induction 1; simpl; lia.
Qed.

End Sorting.

(** ** C2, C3, C4, C8: applying a batch *)

(** C2: an edit whose adjusted line is within the file replaces exactly
    the one line at that index by its replacement lines, however many
    they are, and the offset grows by their number minus one; on the two
    examples the file becomes the expected text. *)
Theorem apply_one_replaces_one_line :
  (forall (st : patch_state) (line : Z) (suggestion : string),
      0 <= line - 1 + offset st < len (lines st) ->
      exists before old after,
        lines st = (before ++ old :: after)%list
        /\ len before = line - 1 + offset st
        /\ lines (apply_one st (line, suggestion))
           = (before ++ split_lines suggestion ++ after)%list
        /\ offset (apply_one st (line, suggestion))
           = offset st + (len (split_lines suggestion) - 1)
        /\ applied (apply_one st (line, suggestion)) = true
        /\ warnings (apply_one st (line, suggestion)) = warnings st)
  /\ file_change three_lines [(1, "new line content")]
     = Some ("new line content" ++ nl ++ "line 2" ++ nl ++ "line 3")
  /\ file_change three_lines
       [(2, "new line 1" ++ nl ++ "new line 2" ++ nl ++ "new line 3")]
     = Some ("line 1" ++ nl ++ "new line 1" ++ nl ++ "new line 2" ++ nl
             ++ "new line 3" ++ nl ++ "line 3").
Proof.
  split; [|split; vm_compute; reflexivity].
  intros st line suggestion H.
  destruct (split_at (lines st) (Z.to_nat (line - 1 + offset st)))
    as (old & Hsplit & Hlen); [unfold len in H; lia|].
  exists (firstn (Z.to_nat (line - 1 + offset st)) (lines st)), old,
    (skipn (S (Z.to_nat (line - 1 + offset st))) (lines st)).
  rewrite apply_one_in_bounds by exact H. cbn [lines offset applied warnings].
  repeat split; try assumption. unfold len. rewrite Hlen. lia.
Qed.

Lemma apply_one_replaces_one_line_witness :
  exists before old after,
    lines (patch_init three_lines) = (before ++ old :: after)%list
    /\ len before = 2 - 1 + 0
    /\ lines (apply_one (patch_init three_lines) (2, "a" ++ nl ++ "b"))
       = (before ++ ["a"; "b"] ++ after)%list.
Proof.
  destruct (proj1 apply_one_replaces_one_line (patch_init three_lines) 2
              ("a" ++ nl ++ "b")) as (before & old & after & H1 & H2 & H3 & _).
  - vm_compute. split; [discriminate | reflexivity].
  - exists before, old, after. repeat split; assumption.
Defined.

(** C3: for a batch with distinct, ascending line numbers, none of which
    is reported out of bounds, the edits are applied in the order given
    and the final line count is the original one plus the sum, over the
    edits, of the number of replacement lines minus one; the text written
    for the file has that many lines. *)
Theorem line_count_after_batch (content : string) (suggs : list edit) :
  ascending suggs ->
  warnings (apply_suggestions content suggs) = [] ->
  apply_suggestions content suggs
  = fold_left apply_one suggs (patch_init content)
  /\ len (lines (apply_suggestions content suggs))
     = len (split_lines content) + total_delta suggs
  /\ len (split_lines (new_content content suggs))
     = len (split_lines content) + total_delta suggs.
Proof.
  intros Hasc Hw.
  assert (Hcount : len (lines (apply_suggestions content suggs))
                   = len (split_lines content) + total_delta suggs).
  { unfold apply_suggestions in *.
    rewrite line_count_no_warning by exact Hw.
    rewrite (total_delta_perm _ _ (sort_by_line_perm suggs)). reflexivity. }
  split; [|split].
  - unfold apply_suggestions. now rewrite sort_by_line_ascending.
  - exact Hcount.
  - unfold new_content, file_change.
    destruct (applied (apply_suggestions content suggs)) eqn:Happ.
    + destruct (apply_suggestions_proper content suggs) as [Hne Hall].
      rewrite split_join_lines by assumption. exact Hcount.
    + apply not_applied_lines in Happ. unfold apply_suggestions in Hcount.
      rewrite Happ in Hcount. exact Hcount.
Qed.

Lemma line_count_after_batch_witness :
  len (lines (apply_suggestions three_lines
                [(1, "a" ++ nl ++ "b"); (3, "c" ++ nl ++ "d" ++ nl ++ "e")]))
  = 3 + (1 + 2).
Proof.
  refine (proj1 (proj2 (line_count_after_batch three_lines
            [(1, "a" ++ nl ++ "b"); (3, "c" ++ nl ++ "d" ++ nl ++ "e")] _ _))).
  - unfold ascending. simpl. repeat constructor.
  - vm_compute. reflexivity.
Defined.

(** C4: an edit whose adjusted line is outside the file changes neither
    the lines nor the offset nor the flag, is reported, and the loop goes
    on with the edits after it; when the flag is still down after the
    batch (that is, when every edit was reported), the lines are those of
    the input, no change is written, and the content is the input.  An
    edit at line 10 of a file of three lines is reported and leaves the
    content as it is; an edit after a reported one is still applied. *)
Theorem out_of_bounds_edit_is_skipped :
  (forall (st : patch_state) (line : Z) (suggestion : string)
          (rest : list edit),
      ~ (0 <= line - 1 + offset st < len (lines st)) ->
      lines (apply_one st (line, suggestion)) = lines st
      /\ offset (apply_one st (line, suggestion)) = offset st
      /\ applied (apply_one st (line, suggestion)) = applied st
      /\ warnings (apply_one st (line, suggestion))
         = (warnings st ++ [(line, line - 1 + offset st)])%list
      /\ fold_left apply_one ((line, suggestion) :: rest) st
         = fold_left apply_one rest (apply_one st (line, suggestion)))
  /\ (forall (content : string) (suggs : list edit),
        applied (apply_suggestions content suggs) = false <->
        List.length (warnings (apply_suggestions content suggs))
        = List.length suggs)
  /\ (forall (content : string) (suggs : list edit),
        applied (apply_suggestions content suggs) = false ->
        lines (apply_suggestions content suggs) = split_lines content
        /\ join_lines (lines (apply_suggestions content suggs)) = content
        /\ file_change content suggs = None
        /\ new_content content suggs = content)
  /\ (file_change three_lines [(10, "new content")] = None
      /\ new_content three_lines [(10, "new content")] = three_lines
      /\ applied (apply_suggestions three_lines [(10, "new content")])
         = false
      /\ warnings (apply_suggestions three_lines [(10, "new content")])
         = [(10, 9)])
  /\ (file_change three_lines [(0, "zz"); (2, "b")]
      = Some ("line 1" ++ nl ++ "b" ++ nl ++ "line 3")
      /\ warnings (apply_suggestions three_lines [(0, "zz"); (2, "b")])
         = [(0, -1)]).
Proof.
  split; [|split; [|split; [|split]]].
  - intros st line suggestion rest H. cbn [fold_left].
    rewrite apply_one_out_of_bounds by exact H.
    cbn [lines offset applied warnings]. repeat split.
  - intros content suggs. unfold apply_suggestions.
    rewrite not_applied_iff by reflexivity. simpl.
    now rewrite (Permutation_length (sort_by_line_perm suggs)).
  - intros content suggs H.
    assert (Hl : lines (apply_suggestions content suggs)
                 = split_lines content)
      by (unfold apply_suggestions in *; now rewrite not_applied_lines).
    unfold new_content, file_change. rewrite H, Hl.
    repeat split. apply join_split_lines.
  - vm_compute. repeat split.
  - vm_compute. repeat split.
Qed.

Lemma out_of_bounds_edit_is_skipped_witness :
  lines (apply_one (patch_init three_lines) (10, "new content"))
  = ["line 1"; "line 2"; "line 3"]
  /\ new_content three_lines [(10, "new content")] = three_lines.
Proof.
  split.
  - refine (proj1 (proj1 out_of_bounds_edit_is_skipped
                     (patch_init three_lines) 10 "new content" [] _)).
    vm_compute. intros [_ H]. discriminate.
  - refine (proj2 (proj2 (proj2 (proj1 (proj2 (proj2
              out_of_bounds_edit_is_skipped)) three_lines
              [(10, "new content")] _)))).
    vm_compute. reflexivity.
Defined.

(** C8: for a batch with pairwise distinct line numbers, applying any
    permutation of the batch gives what applying its ascending order
    gives: the same final state, the same text written, the same
    content. *)
Theorem apply_suggestions_any_order (content : string)
    (suggs suggs' sorted : list edit) :
  NoDup (map fst suggs) ->
  Permutation suggs suggs' ->
  Permutation suggs sorted -> ascending sorted ->
  apply_suggestions content suggs'
  = fold_left apply_one sorted (patch_init content)
  /\ apply_suggestions content suggs' = apply_suggestions content sorted
  /\ file_change content suggs' = file_change content sorted
  /\ new_content content suggs' = new_content content sorted.
Proof.
  intros Hnd Hp Hps Hasc.
  assert (Hsort : sort_by_line suggs' = sorted).
  { apply ascending_unique; [|exact Hasc|].
    - apply sort_by_line_distinct.
      apply (Permutation_NoDup (Permutation_map fst Hp)). exact Hnd.
    - eapply perm_trans; [apply sort_by_line_perm|].
      eapply perm_trans; [apply Permutation_sym, Hp | exact Hps]. }
  assert (Heq : apply_suggestions content suggs'
                = apply_suggestions content sorted).
  { unfold apply_suggestions.
    now rewrite Hsort, (sort_by_line_ascending sorted Hasc). }
  unfold new_content, file_change. rewrite Heq. repeat split.
  unfold apply_suggestions. now rewrite (sort_by_line_ascending sorted Hasc).
Qed.

Lemma apply_suggestions_any_order_witness :
  new_content three_lines [(3, "c"); (1, "a" ++ nl ++ "b"); (2, "x")]
  = new_content three_lines [(1, "a" ++ nl ++ "b"); (2, "x"); (3, "c")].
Proof.
  refine (proj2 (proj2 (proj2 (apply_suggestions_any_order three_lines
            [(2, "x"); (3, "c"); (1, "a" ++ nl ++ "b")]
            [(3, "c"); (1, "a" ++ nl ++ "b"); (2, "x")]
            [(1, "a" ++ nl ++ "b"); (2, "x"); (3, "c")] _ _ _ _)))).
  - simpl. repeat constructor; simpl; intuition discriminate.
  - eapply perm_trans; [apply perm_swap|]. apply perm_skip, perm_swap.
  - eapply perm_trans; [apply perm_skip, perm_swap|]. apply perm_swap.
  - unfold ascending. simpl. repeat constructor.
Defined.

(** ** The loop of [parse_diff_for_suggestions] *)

Section SuggestionLoop.

Lemma at_not_added (l : string) :
  startswith l "@@" = true -> is_added l = false.
Proof.
  intros H. apply startswith_split in H. rewrite H. reflexivity.
Qed.

Lemma old_header_not_hunk (l : string) :
  startswith l "--- a/" = true -> hunk_new_start l = None.
Proof.
  intros H. apply startswith_split in H. rewrite H. reflexivity.
Qed.

(** Before any hunk header, a line that is none changes nothing. *)
Lemma pds_step_before_header (st : pds_state) (l : string) :
  hunk_start st = None -> hunk_new_start l = None -> pds_step st l = st.
Proof.
  intros Hst Hl. unfold pds_step. rewrite Hl, Hst.
  now destruct (startswith l "@@").
Qed.

Lemma pds_fold_before_header (pre : list string) (st : pds_state) :
  hunk_start st = None -> no_header pre -> fold_left pds_step pre st = st.
Proof.
  intros Hst. induction 1 as [|l pre Hl _ IH]; simpl; [reflexivity|].
  now rewrite pds_step_before_header.
Qed.

(** Lines that do not start with ["+"] leave the buffer and the target
    line as they are. *)
Lemma pds_step_not_added (st : pds_state) (l : string) :
  is_added l = false ->
  suggestion_lines (pds_step st l) = suggestion_lines st
  /\ line_num (pds_step st l) = line_num st.
Proof.
  unfold is_added, pds_step. intros Hl. rewrite Hl.
  destruct (startswith l "@@"); [now destruct (hunk_new_start l)|].
  destruct (hunk_start st); [|now split].
  now destruct (startswith l "-").
Qed.

Lemma pds_fold_not_added (ls : list string) (st : pds_state) :
  no_added ls ->
  suggestion_lines (fold_left pds_step ls st) = suggestion_lines st
  /\ line_num (fold_left pds_step ls st) = line_num st.
Proof.
  intros H. revert st. induction H as [|l ls Hl _ IH]; intros st; simpl;
    [now split|].
  destruct (IH (pds_step st l)) as [-> ->]. now apply pds_step_not_added.
Qed.

(** After a hunk header, lines that are neither hunk headers nor Added
    advance the counter once for every Context line. *)
Lemma pds_step_context (st : pds_state) (l : string) (h : Z) :
  hunk_start st = Some h -> hunk_new_start l = None -> is_added l = false ->
  hunk_start (pds_step st l) = Some h
  /\ current_line (pds_step st l)
     = current_line st + (if is_context l then 1 else 0).
Proof.
  unfold is_added, is_context, pds_step. intros Hst Hl Hp.
  rewrite Hl, Hst, Hp.
  destruct (startswith l "@@"); cbn [negb andb]; [split; [easy | lia]|].
  destruct (startswith l "-"); cbn [negb andb hunk_start current_line];
    split; try easy; lia.
Qed.

Lemma pds_fold_context (ctx : list string) (st : pds_state) (h : Z) :
  hunk_start st = Some h -> no_header ctx -> no_added ctx ->
  hunk_start (fold_left pds_step ctx st) = Some h
  /\ current_line (fold_left pds_step ctx st)
     = current_line st + count_context ctx.
Proof.
  intros Hst Hh. revert st Hst.
  induction Hh as [|l ctx Hl _ IH]; intros st Hst Ha.
  - unfold count_context, len. simpl. split; [exact Hst | lia].
  - inversion Ha as [|? ? Hal Ha']; subst.
    destruct (pds_step_context st l h Hst Hl Hal) as [Hs Hc].
    destruct (IH (pds_step st l) Hs Ha') as [Hs' Hc'].
    simpl. split; [exact Hs'|]. rewrite Hc', Hc.
    unfold count_context, len. simpl. destruct (is_context l); simpl; lia.
Qed.

(** After a hunk header, every line that starts with ["+"] is appended
    to the buffer without its first character, and a target line that is
    set stays. *)
Lemma pds_step_after_header (st : pds_state) (l : string) :
  hunk_start st <> None ->
  hunk_start (pds_step st l) <> None
  /\ suggestion_lines (pds_step st l)
     = (suggestion_lines st ++ map (drop 1) (filter is_added [l]))%list
  /\ (suggestion_lines st <> [] -> line_num (pds_step st l) = line_num st).
Proof.
  intros Hst. unfold pds_step. fold (is_added l). cbn [filter].
  destruct (startswith l "@@") eqn:Hat.
  - rewrite (at_not_added l Hat). cbn [map]. rewrite app_nil_r.
    destruct (hunk_new_start l); cbn [hunk_start suggestion_lines line_num];
      repeat split; try assumption; discriminate.
  - destruct (hunk_start st) as [h|] eqn:Hh; [|congruence].
    destruct (is_added l).
    + cbn [hunk_start suggestion_lines line_num map].
      repeat split; [discriminate|].
      intros Hne. now destruct (suggestion_lines st).
    + cbn [map]. rewrite app_nil_r.
      destruct (startswith l "-");
        cbn [hunk_start suggestion_lines line_num]; rewrite ?Hh;
        repeat split; discriminate.
Qed.

Lemma pds_fold_after_header (ls : list string) (st : pds_state) :
  hunk_start st <> None ->
  suggestion_lines (fold_left pds_step ls st)
  = (suggestion_lines st ++ map (drop 1) (filter is_added ls))%list
  /\ (suggestion_lines st <> [] ->
      line_num (fold_left pds_step ls st) = line_num st).
Proof.
  revert st. induction ls as [|l ls IH]; intros st Hst.
  - simpl. rewrite app_nil_r. now split.
  - destruct (pds_step_after_header st l Hst) as (Hs & Hb & Hn).
    destruct (IH (pds_step st l) Hs) as [Hb' Hn'].
    cbn [fold_left]. split.
    + rewrite Hb', Hb. rewrite <- app_assoc, <- map_app. f_equal. f_equal.
      simpl. now destruct (is_added l).
    + intros Hne. rewrite Hn', Hn; try assumption; [reflexivity|].
      rewrite Hb. now destruct (suggestion_lines st).
Qed.

End SuggestionLoop.

Section SplittingLists.

Context {A : Type} (P : A -> bool).

(** A list has no element with [P], or a first one. *)
Lemma split_first (l : list A) :
  Forall (fun x => P x = false) l
  \/ exists l1 x l2, l = (l1 ++ x :: l2)%list
                     /\ Forall (fun y => P y = false) l1 /\ P x = true.
Proof.
  induction l as [|y l IH]; [left; constructor|].
  destruct (P y) eqn:Hy.
  - right. exists [], y, l. repeat split; [constructor | exact Hy].
  - destruct IH as [IH|(l1 & x & l2 & -> & H1 & Hx)].
    + left. now constructor.
    + right. exists (y :: l1), x, l2. repeat split; [now constructor | exact Hx].
Qed.

(** A list has no element with [P], or a last one. *)
Lemma split_last (l : list A) :
  Forall (fun x => P x = false) l
  \/ exists l1 x l2, l = (l1 ++ x :: l2)%list
                     /\ P x = true /\ Forall (fun y => P y = false) l2.
Proof.
  induction l as [|y l IH]; [left; constructor|].
  destruct IH as [IH|(l1 & x & l2 & -> & Hx & H2)].
  - destruct (P y) eqn:Hy.
    + right. exists [], y, l. now repeat split.
    + left. now constructor.
  - right. exists (y :: l1), x, l2. now repeat split.
Qed.

End SplittingLists.

Section ParsingSuggestions.

Lemma header_at (h : string) (c : Z) :
  hunk_new_start h = Some c -> startswith h "@@" = true.
Proof.
  unfold hunk_new_start, expect. intros H.
  destruct (startswith h "@@ -") eqn:E; [|discriminate].
  apply startswith_split in E. rewrite E. reflexivity.
Qed.

Lemma added_not_at (a : string) :
  is_added a = true -> startswith a "@@" = false.
Proof.
  intros H. destruct (startswith a "@@") eqn:E; [|reflexivity].
  apply at_not_added in E. congruence.
Qed.

(** With the old-path header in place, the result is read off the state
    that the loop reaches on the lines after it. *)
Lemma parse_diff_lines_header (first : string) (rest : list string) :
  startswith first "--- a/" = true ->
  parse_diff_lines (first :: rest) =
  match suggestion_lines (fold_left pds_step rest pds_init) with
  | [] => None
  | _ :: _ =>
      Some (drop 6 first, line_num (fold_left pds_step rest pds_init),
            join_lines (suggestion_lines (fold_left pds_step rest pds_init)))
  end.
Proof.
  intros H. unfold parse_diff_lines. rewrite H. cbn [negb fold_left].
  rewrite (pds_step_before_header pds_init first eq_refl
             (old_header_not_hunk first H)).
  reflexivity.
Qed.

Lemma parse_diff_lines_no_header (first : string) (rest : list string) :
  startswith first "--- a/" = false -> parse_diff_lines (first :: rest) = None.
Proof. intros H. unfold parse_diff_lines. now rewrite H. Qed.

(** No Added line after a first hunk header: no suggestion. *)
Lemma parse_diff_lines_no_added (first : string) (pre body : list string) :
  startswith first "--- a/" = true -> no_header pre -> no_added body ->
  parse_diff_lines (first :: pre ++ body) = None.
Proof.
  intros Hf Hpre Hbody. rewrite parse_diff_lines_header by exact Hf.
  rewrite fold_left_app, (pds_fold_before_header pre pds_init eq_refl Hpre).
  destruct (pds_fold_not_added body pds_init Hbody) as [-> _]. reflexivity.
Qed.

(** The first Added line [a] comes after the hunk header [h] and the
    lines [ctx]: its number is the start of [h] plus the Context lines of
    [ctx], and the text is that of the Added lines from [a] on. *)
Lemma parse_diff_lines_added (first h a : string) (c : Z)
    (pre skipped ctx after : list string) :
  startswith first "--- a/" = true ->
  no_header pre -> no_added skipped ->
  hunk_new_start h = Some c ->
  no_header ctx -> no_added ctx ->
  is_added a = true ->
  parse_diff_lines (first :: pre ++ skipped ++ h :: ctx ++ a :: after)
  = Some (drop 6 first, c + count_context ctx, added_text (a :: after)).
Proof.
  intros Hf Hpre Hsk Hh Hctx Hctxa Ha.
  rewrite parse_diff_lines_header by exact Hf.
  rewrite fold_left_app, (pds_fold_before_header pre pds_init eq_refl Hpre).
  rewrite fold_left_app. cbn [fold_left]. rewrite fold_left_app.
  cbn [fold_left].
  destruct (pds_fold_not_added skipped pds_init Hsk) as [Hs2 Hn2].
  set (st2 := fold_left pds_step skipped pds_init) in *.
  assert (Hst3 : pds_step st2 h
                 = {| hunk_start := Some c; suggestion_lines := [];
                      current_line := c; line_num := 0 |}).
  { unfold pds_step. rewrite (header_at h c Hh), Hh, Hs2, Hn2. reflexivity. }
  rewrite Hst3.
  set (st3 := {| hunk_start := Some c; suggestion_lines := [];
                 current_line := c; line_num := 0 |}).
  destruct (pds_fold_context ctx st3 c eq_refl Hctx Hctxa) as [Hh4 Hc4].
  destruct (pds_fold_not_added ctx st3 Hctxa) as [Hs4 Hn4].
  set (st4 := fold_left pds_step ctx st3) in *.
  assert (Hst5 : pds_step st4 a
                 = {| hunk_start := Some c; suggestion_lines := [drop 1 a];
                      current_line := c + count_context ctx + 1;
                      line_num := c + count_context ctx |}).
  { unfold pds_step. rewrite (added_not_at a Ha), Hh4.
    unfold is_added in Ha. rewrite Ha, Hs4, Hc4. reflexivity. }
  rewrite Hst5.
  set (st5 := {| hunk_start := Some c; suggestion_lines := [drop 1 a];
                 current_line := c + count_context ctx + 1;
                 line_num := c + count_context ctx |}).
  destruct (pds_fold_after_header after st5) as [Hs6 Hn6]; [discriminate|].
  rewrite Hs6, Hn6 by discriminate. cbn [suggestion_lines line_num app].
  unfold added_text. cbn [filter]. rewrite Ha. reflexivity.
Qed.

(** Every list of lines is in one of the two cases above. *)
Lemma added_or_not (rest : list string) :
  (exists pre body, rest = (pre ++ body)%list
                    /\ no_header pre /\ no_added body)
  \/ (exists pre skipped h c ctx a after,
        rest = (pre ++ skipped ++ h :: ctx ++ a :: after)%list
        /\ no_header pre /\ no_added skipped /\ hunk_new_start h = Some c
        /\ no_header ctx /\ no_added ctx /\ is_added a = true).
Proof.
  set (hdr := fun l => match hunk_new_start l with
                       | Some _ => true | None => false end).
  assert (Hhdr : forall ls, Forall (fun l => hdr l = false) ls -> no_header ls).
  { intros ls H. eapply Forall_impl; [|exact H]. unfold hdr. intros l Hl.
    simpl in Hl. now destruct (hunk_new_start l). }
  destruct (split_first hdr rest) as [Hno|(pre & h0 & body0 & -> & Hpre & Hh0)].
  { left. exists rest, []. rewrite app_nil_r.
    repeat split; [now apply Hhdr | constructor]. }
  assert (Hh0at : is_added h0 = false).
  { unfold hdr in Hh0. destruct (hunk_new_start h0) eqn:E; [|discriminate].
    eapply at_not_added, header_at, E. }
  destruct (split_first is_added body0)
    as [Hno|(b1 & a & after & -> & Hb1 & Ha)].
  { left. exists pre, (h0 :: body0).
    repeat split; [now apply Hhdr | now constructor]. }
  right.
  destruct (split_last hdr (h0 :: b1))
    as [Hno|(skipped & h & ctx & Heq & Hh & Hctx)].
  { inversion Hno; congruence. }
  assert (Hall : no_added (skipped ++ h :: ctx))
    by (rewrite <- Heq; now constructor).
  apply Forall_app in Hall. destruct Hall as [Hsk Hhc].
  inversion Hhc as [|? ? _ Hctxa]; subst.
  unfold hdr in Hh. destruct (hunk_new_start h) as [c|] eqn:Ec; [|discriminate].
  exists pre, skipped, h, c, ctx, a, after.
  repeat split; try assumption; try (now apply Hhdr).
  change (h0 :: (b1 ++ a :: after))%list
    with ((h0 :: b1) ++ a :: after)%list.
  rewrite Heq, <- app_assoc. reflexivity.
Qed.

End ParsingSuggestions.

(** ** White space at the ends of a block *)

Section Trimming.

Lemma lstrip_spec (s : string) :
  exists lead,
    s = lead ++ lstrip s /\ all_chars is_space lead = true
    /\ (forall c r, lstrip s = String c r -> is_space c = false).
Proof.
  induction s as [|c s (lead & Hs & Hlead & Hfirst)].
  - exists "". repeat split. discriminate.
  - cbn [lstrip]. destruct (is_space c) eqn:Ec.
    + exists (String c lead). cbn [append all_chars].
      rewrite <- Hs, Ec, Hlead. now repeat split.
    + exists "". repeat split. now intros c' r [= <- _].
Qed.

Lemma append_last_nil (r : string) (c : ascii) : r ++ String c "" <> "".
Proof. now destruct r. Qed.

Lemma rstrip_spec (s : string) :
  exists trail,
    s = rstrip s ++ trail /\ all_chars is_space trail = true
    /\ (forall r c, rstrip s = r ++ String c "" -> is_space c = false)
    /\ (forall c r, s = String c r -> is_space c = false ->
                    exists r', rstrip s = String c r').
Proof.
  induction s as [|c s (trail & Hs & Htrail & Hlast & _)].
  - exists "". repeat split; try discriminate.
    intros r c H. symmetry in H. now apply append_last_nil in H.
  - cbn [rstrip]. destruct (rstrip s) as [|d t] eqn:E.
    + cbn [append] in Hs. subst trail. destruct (is_space c) eqn:Ec.
      * exists (String c s). cbn [append all_chars]. rewrite Ec, Htrail.
        repeat split.
        -- intros r c' H. symmetry in H. now apply append_last_nil in H.
        -- intros c' r [= <- _]. congruence.
      * exists s. repeat split; try assumption.
        -- intros [|x r] c' H; cbn [append] in H.
           ++ now injection H as <-.
           ++ injection H as _ H. symmetry in H.
              now apply append_last_nil in H.
        -- intros c' r [= <- _] _. now exists "".
    + exists trail. cbn [append]. rewrite Hs at 1. repeat split.
      * exact Htrail.
      * intros [|x r] c' H; cbn [append] in H; [discriminate|].
        injection H as _ H. now apply (Hlast r c').
      * intros c' r [= <- _] _. now exists (String d t).
Qed.

(** [strip] takes the white space off the two ends. *)
Lemma trimmed_strip (s : string) : trimmed s (strip s).
Proof.
  destruct (lstrip_spec s) as (lead & Hs & Hlead & Hfirst).
  destruct (rstrip_spec (lstrip s)) as (trail & Hl & Htrail & Hlast & Hkeep).
  exists lead, trail. unfold strip. rewrite <- Hl.
  repeat split; try assumption.
  intros c r Hc. destruct (lstrip s) as [|c' r'] eqn:El; [discriminate|].
  pose proof (Hfirst c' r' eq_refl) as Hc'.
  destruct (Hkeep c' r' eq_refl Hc') as (r'' & Hr). rewrite Hr in Hc.
  now injection Hc as <- _.
Qed.

Lemma lstrip_lead (lead x : string) :
  all_chars is_space lead = true -> lstrip (lead ++ x) = lstrip x.
Proof.
  induction lead as [|c lead IH]; [reflexivity|]. cbn [all_chars].
  intros H. apply andb_true_iff in H. destruct H as [Hc H].
  cbn [append lstrip]. rewrite Hc. now apply IH.
Qed.

Lemma rstrip_trail (a trail : string) :
  all_chars is_space trail = true -> rstrip (a ++ trail) = rstrip a.
Proof.
  intros H. induction a as [|c a IH].
  - cbn [append]. induction trail as [|c t IHt]; [reflexivity|].
    cbn [all_chars] in H. apply andb_true_iff in H. destruct H as [Hc H].
    cbn [rstrip]. now rewrite (IHt H), Hc.
  - cbn [append rstrip]. now rewrite IH.
Qed.

Lemma rstrip_last (r : string) (c : ascii) :
  is_space c = false -> rstrip (r ++ String c "") = r ++ String c "".
Proof.
  intros Hc. induction r as [|x r IH].
  - cbn [append rstrip]. now rewrite Hc.
  - cbn [append rstrip]. rewrite IH.
    destruct (r ++ String c "") eqn:E; [|reflexivity].
    now apply append_last_nil in E.
Qed.

Lemma string_last (c : ascii) (s : string) :
  exists r d, String c s = r ++ String d "".
Proof.
  revert c. induction s as [|x s IH]; intros c.
  - now exists "", c.
  - destruct (IH x) as (r & d & E). exists (String c r), d.
    cbn [append]. now rewrite <- E.
Qed.

(** A text has one trimmed form, the one that [strip] gives. *)
Lemma trimmed_unique (s core : string) :
  trimmed s core -> core = strip s.
Proof.
  intros (lead & trail & -> & Hlead & Htrail & Hfirst & Hlast).
  unfold strip. rewrite (lstrip_lead _ _ Hlead).
  destruct core as [|c r].
  - cbn [append]. rewrite <- (append_nil_r trail) at 1.
    now rewrite (lstrip_lead _ _ Htrail).
  - cbn [append lstrip]. rewrite (Hfirst c r eq_refl).
    change (String c (r ++ trail)) with (String c r ++ trail).
    rewrite (rstrip_trail _ _ Htrail).
    destruct (string_last c r) as (r' & d & E). rewrite E.
    symmetry. apply rstrip_last. now apply (Hlast r' d).
Qed.

End Trimming.

(** ** C5, C10: what a block parses to *)

(** C5 (as amended): [parse_diff_for_suggestions] reads the lines of the
    block text without the white space at its two ends, not the lines of
    the block text itself.  On those lines it returns [None] when the
    first line is no [--- a/<path>] header or when no line after a first
    hunk header starts with ["+"]; otherwise it returns the path of the
    header, the new-file number of the first Added line (the start of
    the hunk header before it plus the Context lines in between; Removed
    lines do not count) and the Added lines joined without their ["+"].
    One of these cases always applies, and every text has such lines.
    The sample block parses to [("test.py", 1, "new line")]. *)
Theorem parse_diff_for_suggestions_triple :
  (forall (diff_text core first : string) (rest : list string),
      trimmed diff_text core ->
      split_lines core = first :: rest ->
      (startswith first "--- a/" = false ->
       parse_diff_for_suggestions diff_text = None)
      /\ (forall file_path pre body,
            first = "--- a/" ++ file_path ->
            rest = (pre ++ body)%list -> no_header pre -> no_added body ->
            parse_diff_for_suggestions diff_text = None)
      /\ (forall file_path pre skipped h c ctx a after,
            first = "--- a/" ++ file_path ->
            rest = (pre ++ skipped ++ h :: ctx ++ a :: after)%list ->
            no_header pre -> no_added skipped ->
            hunk_new_start h = Some c -> no_header ctx -> no_added ctx ->
            is_added a = true ->
            parse_diff_for_suggestions diff_text
            = Some (file_path, c + count_context ctx,
                    added_text (a :: after)))
      /\ ((exists pre body,
              rest = (pre ++ body)%list /\ no_header pre /\ no_added body)
          \/ (exists pre skipped h c ctx a after,
                rest = (pre ++ skipped ++ h :: ctx ++ a :: after)%list
                /\ no_header pre /\ no_added skipped
                /\ hunk_new_start h = Some c
                /\ no_header ctx /\ no_added ctx /\ is_added a = true)))
  /\ (forall diff_text,
        exists core first rest,
          trimmed diff_text core /\ split_lines core = first :: rest)
  /\ (forall removed, is_context ("-" ++ removed) = false)
  /\ parse_diff_for_suggestions test_block = Some ("test.py", 1, "new line")
  /\ parse_diff_for_suggestions "not a diff" = None.
Proof.
  split; [|split; [|split; [reflexivity | split; vm_compute; reflexivity]]].
  - intros diff_text core first rest Hcore Hlines.
    apply trimmed_unique in Hcore. subst core.
    unfold parse_diff_for_suggestions.
    rewrite Hlines. split; [|split; [|split]].
    + apply parse_diff_lines_no_header.
    + intros file_path pre body -> -> Hpre Hbody.
      apply parse_diff_lines_no_added; [apply startswith_append | |];
        assumption.
    + intros file_path pre skipped h c ctx a after -> -> Hpre Hsk Hh Hctx
        Hca Ha.
      rewrite parse_diff_lines_added with (c := c);
        try assumption; [|apply startswith_append].
      reflexivity.
    + apply added_or_not.
  - intros diff_text. exists (strip diff_text).
    pose proof (split_lines_not_nil (strip diff_text)) as Hne.
    destruct (split_lines (strip diff_text)) as [|first rest];
      [congruence|].
    exists first, rest. split; [apply trimmed_strip | reflexivity].
Qed.

Lemma parse_diff_for_suggestions_triple_witness :
  parse_diff_for_suggestions test_block = Some ("test.py", 1 + 0, "new line").
Proof.
  refine (proj1 (proj2 (proj2 (proj1 parse_diff_for_suggestions_triple
            test_block test_block "--- a/test.py"
            ["+++ b/test.py"; "@@ -1,1 +1,1 @@"; "-old line"; "+new line"]
            (trimmed_strip test_block) eq_refl)))
            "test.py" ["+++ b/test.py"] [] "@@ -1,1 +1,1 @@" 1 ["-old line"]
            "+new line" [] eq_refl eq_refl _ _ eq_refl _ _ eq_refl);
    repeat constructor.
Defined.

(** C5 (as stated) fails: the first line of [padded_block] is empty,
    which is no [--- a/<path>] header, and its one Added line is ["y  "]
    without its ["+"]; yet the block parses, and to the text ["y"]: the
    code takes the line feed off the start of the block and the blanks
    off its end before it splits it into lines. *)
Lemma parse_diff_for_suggestions_not_block_lines :
  split_lines padded_block = [""; "--- a/f"; "@@ -1 +1 @@"; "+y  "]
  /\ startswith "" "--- a/" = false
  /\ hunk_new_start "@@ -1 +1 @@" = Some 1
  /\ added_text ["+y  "] = "y  "
  /\ parse_diff_for_suggestions padded_block = Some ("f", 1, "y").
Proof. vm_compute. repeat split. Qed.

(** C10: the lines between the first line and the first hunk header leave
    the state of the loop as it starts (empty buffer, no target line), so
    the result is the one for the block without them; a [+++ b/<path>]
    line is no hunk header, and is ignored there although it starts with
    ["+"]. *)
Theorem lines_before_first_hunk_header_ignored :
  (forall (first : string) (pre : list string),
      hunk_new_start first = None -> no_header pre ->
      fold_left pds_step (first :: pre) pds_init = pds_init)
  /\ (forall (diff_text first : string) (pre rest : list string),
        split_lines (strip diff_text) = (first :: pre ++ rest)%list ->
        no_header pre ->
        parse_diff_for_suggestions diff_text
        = parse_diff_lines (first :: rest))
  /\ (forall path, hunk_new_start ("+++ b/" ++ path) = None)
  /\ parse_diff_for_suggestions test_block
     = parse_diff_lines ["--- a/test.py"; "@@ -1,1 +1,1 @@"; "-old line";
                         "+new line"]
  /\ parse_diff_for_suggestions
       ("--- a/f" ++ nl ++ "+early" ++ nl ++ "+++ b/f" ++ nl
        ++ "@@ -4 +7 @@" ++ nl ++ "+x")
     = Some ("f", 7, "x").
Proof.
  split; [|split; [|split; [reflexivity | split; vm_compute; reflexivity]]].
  - intros first pre Hf Hpre. cbn [fold_left].
    rewrite pds_step_before_header by (reflexivity || exact Hf).
    now apply pds_fold_before_header.
  - intros diff_text first pre rest Hlines Hpre.
    unfold parse_diff_for_suggestions. rewrite Hlines.
    destruct (startswith first "--- a/") eqn:Hf.
    + rewrite !parse_diff_lines_header by exact Hf.
      rewrite fold_left_app.
      now rewrite (pds_fold_before_header pre pds_init eq_refl Hpre).
    + now rewrite !parse_diff_lines_no_header by exact Hf.
Qed.

Lemma lines_before_first_hunk_header_ignored_witness :
  parse_diff_for_suggestions test_block
  = parse_diff_lines ["--- a/test.py"; "@@ -1,1 +1,1 @@"; "-old line";
                      "+new line"].
Proof.
  refine (proj1 (proj2 lines_before_first_hunk_header_ignored)
            test_block "--- a/test.py" ["+++ b/test.py"]
            ["@@ -1,1 +1,1 @@"; "-old line"; "+new line"] eq_refl _).
  repeat constructor.
Defined.

(** ** Searching a text *)

Section Searching.

Lemma take_drop (n : nat) (s : string) : take n s ++ drop n s = s.
Proof.
  revert s. induction n as [|n IH]; intros [|c s]; simpl; try reflexivity.
  now rewrite IH.
Qed.

Lemma length_take (n : nat) (s : string) :
  (n <= String.length s)%nat -> String.length (take n s) = n.
Proof.
  revert s. induction n as [|n IH]; intros [|c s] H; simpl in *;
    try reflexivity; try lia.
  rewrite IH; lia.
Qed.

Lemma length_drop (n : nat) (s : string) :
  String.length (drop n s) = (String.length s - n)%nat.
Proof.
  revert s. induction n as [|n IH]; intros [|c s]; simpl; try reflexivity.
  apply IH.
Qed.

Lemma drop_drop (a b : nat) (s : string) :
  drop a (drop b s) = drop (b + a) s.
Proof.
  revert s. induction b as [|b IH]; intros s; [reflexivity|].
  destruct s as [|c s]; simpl; [now destruct a | apply IH].
Qed.

Lemma startswith_length (s p : string) :
  startswith s p = true -> (String.length p <= String.length s)%nat.
Proof.
  intros H. apply startswith_split in H. rewrite H, length_append. lia.
Qed.

Lemma append_inv_length (a b c d : string) :
  a ++ b = c ++ d -> String.length a = String.length c -> a = c /\ b = d.
Proof.
  revert c. induction a as [|x a IH]; intros [|y c] H Hl; simpl in *;
    try discriminate; [now split|].
  injection H as -> H. destruct (IH c H) as [-> ->]; [lia | now split].
Qed.

(** An occurrence of [m] in [s], by its place. *)
Lemma occurrence_at (m s pre post : string) :
  s = pre ++ m ++ post ->
  startswith (drop (String.length pre) s) m = true.
Proof. intros ->. rewrite drop_append. apply startswith_append. Qed.

Lemma find_from_some (sub rest : string) (pos r : nat) :
  find_from sub rest pos = Some r ->
  exists i, r = (pos + i)%nat /\ (i <= String.length rest)%nat
            /\ startswith (drop i rest) sub = true
            /\ forall j, (j < i)%nat -> startswith (drop j rest) sub = false.
Proof.
  revert pos. induction rest as [|c rest IH]; intros pos H.
  - cbn [find_from] in H. destruct (startswith "" sub) eqn:E; [|discriminate].
    injection H as <-. exists 0%nat.
    repeat split; first [exact E | cbn; lia].
  - cbn [find_from] in H. destruct (startswith (String c rest) sub) eqn:E.
    + injection H as <-. exists 0%nat.
      repeat split; first [exact E | cbn; lia].
    + destruct (IH _ H) as (i & -> & Hi & Hs & Hmin).
      exists (S i). repeat split; [lia | simpl; lia | exact Hs |].
      intros [|j] Hj; [exact E | apply Hmin; lia].
Qed.

Lemma find_from_none (sub rest : string) (pos : nat) :
  find_from sub rest pos = None ->
  forall j, (j <= String.length rest)%nat ->
            startswith (drop j rest) sub = false.
Proof.
  revert pos. induction rest as [|c rest IH]; intros pos H j Hj.
  - cbn [find_from] in H. destruct (startswith "" sub) eqn:E; [discriminate|].
    simpl in Hj. now replace j with 0%nat by lia.
  - cbn [find_from] in H.
    destruct (startswith (String c rest) sub) eqn:E; [discriminate|].
    destruct j as [|j]; [exact E|]. simpl in *. apply (IH _ H). lia.
Qed.

Lemma find_from_first_split (sub rest : string) (pos i : nat) :
  find_from sub rest pos = Some (pos + i)%nat ->
  first_split sub rest (take i rest) (drop (i + String.length sub) rest)
  /\ (i + String.length sub <= String.length rest)%nat.
Proof.
  intros H. destruct (find_from_some _ _ _ _ H) as (i' & Hi' & Hle & Hs & Hmin).
  assert (i' = i) as -> by lia.
  pose proof (startswith_length _ _ Hs) as Hlen. rewrite length_drop in Hlen.
  split; [split|lia].
  - rewrite <- drop_drop, <- (startswith_split _ _ Hs). symmetry.
    apply take_drop.
  - intros pre' post' Heq. rewrite length_take by exact Hle.
    destruct (Nat.le_gt_cases i (String.length pre')) as [|Hlt]; [assumption|].
    apply Hmin in Hlt. rewrite (occurrence_at _ _ _ _ Heq) in Hlt.
    discriminate.
Qed.

Lemma find_from_absent (sub rest : string) (pos : nat) :
  find_from sub rest pos = None -> absent sub rest.
Proof.
  intros H pre post Heq.
  pose proof (find_from_none _ _ _ H (String.length pre)) as Hn.
  rewrite (occurrence_at _ _ _ _ Heq) in Hn.
  assert (false = true -> False) by discriminate.
  rewrite Heq, length_append in Hn. apply H0. symmetry. apply Hn. lia.
Qed.

Lemma first_split_unique (m s p1 t1 p2 t2 : string) :
  first_split m s p1 t1 -> first_split m s p2 t2 -> p1 = p2 /\ t1 = t2.
Proof.
  intros [H1 M1] [H2 M2].
  pose proof (M1 _ _ H2). pose proof (M2 _ _ H1).
  rewrite H1 in H2.
  destruct (append_inv_length _ _ _ _ H2) as [-> Ht]; [lia|].
  destruct (append_inv_length _ _ _ _ Ht eq_refl) as [_ ->]. now split.
Qed.

Lemma first_split_not_absent (m s p t : string) :
  first_split m s p t -> absent m s -> False.
Proof. intros [H _] Ha. exact (Ha _ _ H). Qed.

End Searching.

(** ** C9: the fenced blocks *)

Section FencedBlocks.

Lemma find_found (s sub : string) (start : nat) :
  (start <= String.length s)%nat ->
  match find s sub start with
  | None => absent sub (drop start s)
  | Some r =>
      exists i, r = (start + i)%nat
                /\ first_split sub (drop start s) (take i (drop start s))
                     (drop (start + i + String.length sub) s)
                /\ (start + i + String.length sub <= String.length s)%nat
  end.
Proof.
  intros Hle. unfold find.
  destruct (Nat.leb_spec start (String.length s)); [|lia].
  destruct (find_from sub (drop start s) start) as [r|] eqn:E.
  - destruct (find_from_some _ _ _ _ E) as (i & -> & _).
    destruct (find_from_first_split _ _ _ _ E) as [Hfs Hb].
    exists i. rewrite length_drop in Hb. rewrite drop_drop in Hfs.
    rewrite Nat.add_assoc in Hfs. repeat split; [apply Hfs | apply Hfs | lia].
  - now apply find_from_absent with start.
Qed.

(** The loop, started at [start_pos], appends the fenced blocks of
    [analysis[start_pos:]]; the length of that rest bounds its turns. *)
Lemma diff_blocks_loop_fenced (analysis : string) (fuel start_pos : nat)
    (diff_blocks : list string) :
  (start_pos <= String.length analysis)%nat ->
  (String.length analysis - start_pos < fuel)%nat ->
  exists blocks,
    diff_blocks_loop fuel analysis start_pos diff_blocks
    = Some (diff_blocks ++ blocks)%list
    /\ fenced_blocks (drop start_pos analysis) blocks.
Proof.
  revert start_pos diff_blocks.
  induction fuel as [|fuel IH]; intros p acc Hp Hfuel; [lia|].
  cbn [diff_blocks_loop].
  pose proof (find_found analysis fence_open p Hp) as Hopen.
  destruct (find analysis fence_open p) as [r|].
  - destruct Hopen as (i & -> & Hfs & Hb).
    change (String.length fence_open) with 8%nat in *.
    pose proof (find_found analysis fence_close (p + i + 8) Hb) as Hclose.
    destruct (find analysis fence_close (p + i + 8)) as [e|].
    + destruct Hclose as (j & -> & Hfs' & Hb').
      change (String.length fence_close) with 4%nat in *.
      destruct (IH (p + i + 8 + j + 4)%nat
                  (acc ++ [slice analysis (p + i + 8) (p + i + 8 + j)])%list)
        as (blocks & Hrun & Hrest); [lia | lia |].
      exists (slice analysis (p + i + 8) (p + i + 8 + j) :: blocks).
      split; [now rewrite Hrun, <- app_assoc|].
      eapply fenced_block; [exact Hfs | | exact Hrest].
      unfold slice. now replace (p + i + 8 + j - (p + i + 8))%nat with j by lia.
    + exists []. rewrite app_nil_r. split; [reflexivity|].
      eapply fenced_unterminated; eassumption.
  - exists []. rewrite app_nil_r. split; [reflexivity|].
    now apply fenced_none.
Qed.

Lemma fenced_blocks_unique (s : string) (b1 b2 : list string) :
  fenced_blocks s b1 -> fenced_blocks s b2 -> b1 = b2.
Proof.
  intros H1. revert b2.
  induction H1 as [s Ha | s pre tail Hfs Ha
                  | s pre tail body rest blocks Hfs Hfs' _ IH];
    intros b2 H2; inversion H2 as [? Ha2 | ? pre2 tail2 Hfs2 Ha2
                                  | ? pre2 tail2 body2 rest2 blocks2
                                      Hfs2 Hfs2' Hrest2]; subst;
    try reflexivity;
    repeat match goal with
      | Hf : first_split ?m ?s _ _, Hf' : first_split ?m ?s _ _ |- _ =>
          destruct (first_split_unique _ _ _ _ _ _ Hf Hf') as [<- <-];
          clear Hf'
      end;
    try match goal with
      | Hf : first_split ?m ?s _ _, Ha' : absent ?m ?s |- _ =>
          exfalso; exact (first_split_not_absent _ _ _ _ Hf Ha')
      end.
  f_equal. now apply IH.
Qed.

End FencedBlocks.

(** C9: the extraction loop always ends, and what it returns is exactly
    the list of fenced blocks of the text: the spans between a start
    marker and the next end marker after it, from left to right, and
    nothing for a start marker with no end marker after it. *)
Theorem extract_diff_blocks_fenced :
  (forall analysis, exists blocks, extract_diff_blocks analysis = Some blocks)
  /\ (forall analysis blocks,
        extract_diff_blocks analysis = Some blocks
        <-> fenced_blocks analysis blocks)
  /\ extract_diff_blocks
       ("see " ++ fence_open ++ "one" ++ fence_close ++ " and "
        ++ fence_open ++ "two" ++ nl ++ "lines" ++ fence_close ++ nl
        ++ fence_open ++ "open")
     = Some ["one"; "two" ++ nl ++ "lines"]
  /\ extract_diff_blocks (fence_open ++ "never closed") = Some []
  /\ extract_diff_blocks ("```diff" ++ nl ++ "```") = Some [].
Proof.
  assert (Hrun : forall analysis, exists blocks,
             extract_diff_blocks analysis = Some blocks
             /\ fenced_blocks analysis blocks).
  { intros analysis. unfold extract_diff_blocks.
    destruct (diff_blocks_loop_fenced analysis
                (S (String.length analysis)) 0 []) as (blocks & H & Hf);
      [lia | lia |].
    exists blocks. now split. }
  split; [|split; [|repeat split; vm_compute; reflexivity]].
  - intros analysis. destruct (Hrun analysis) as (blocks & H & _).
    now exists blocks.
  - intros analysis blocks. destruct (Hrun analysis) as (blocks' & H & Hf).
    split.
    + intros H'. rewrite H in H'. injection H' as <-. exact Hf.
    + intros H'. rewrite H. f_equal.
      now apply fenced_blocks_unique with analysis.
Qed.

Lemma extract_diff_blocks_fenced_witness :
  fenced_blocks (fence_open ++ "x" ++ fence_close ++ fence_open ++ "y") ["x"].
Proof.
  apply (proj1 (proj1 (proj2 extract_diff_blocks_fenced)
                  (fence_open ++ "x" ++ fence_close ++ fence_open ++ "y")
                  ["x"])).
  vm_compute. reflexivity.
Defined.

(** ** [find_diff_position] on a well-formed diff *)

Section RenderedLines.





Variable line_number : Z.



End RenderedLines.

Section WellFormedDiffs.

Variable file_path : string.
Variable line_number : Z.




















End WellFormedDiffs.

Section RenderedText.

Lemma one_line_append (a b : string) :
  one_line (a ++ b) = one_line a && one_line b.
Proof.
  induction a as [|c a IH]; simpl; [reflexivity|].
  now rewrite IH, andb_assoc.
Qed.






End RenderedText.

(** ** C1: the position of a target line *)





(** ** Supplements: standard hunk headers, and when the loops end *)

Section StandardHeaders.

Lemma span_digits_append (ds rest : string) :
  all_digits ds = true -> span_digits rest = ("", rest) ->
  span_digits (ds ++ rest) = (ds, rest).
Proof.
  intros Hds Hrest. induction ds as [|c ds IH]; [exact Hrest|].
  cbn [all_digits] in Hds. apply andb_true_iff in Hds. destruct Hds as [Hc Hds].
  cbn [append span_digits]. now rewrite Hc, (IH Hds).
Qed.

Lemma digits1_number (ds rest : string) :
  number ds -> span_digits rest = ("", rest) ->
  digits1 (ds ++ rest) = Some (ds, rest).
Proof.
  intros [Hne Hds] Hrest. unfold digits1.
  rewrite span_digits_append by assumption. now destruct ds.
Qed.

Lemma opt_comma_digits_count (count : option string) (rest : string) :
  (forall ds, count = Some ds -> number ds) ->
  span_digits rest = ("", rest) -> expect "," rest = None ->
  opt_comma_digits (count_suffix count ++ rest) = rest.
Proof.
  intros Hcount Hrest Hcomma. unfold opt_comma_digits.
  destruct count as [ds|]; cbn [count_suffix].
  - change (expect "," (("," ++ ds) ++ rest)) with (Some (ds ++ rest)).
    cbv beta iota. now rewrite digits1_number by auto.
  - cbn [append]. now rewrite Hcomma.
Qed.

(** A header in standard form matches the pattern, and its new-file
    start is the number after the ["+"]. *)
Lemma hunk_new_start_standard (old_start new_start heading : string)
    (old_count new_count : option string) :
  number old_start -> number new_start ->
  (forall ds, old_count = Some ds -> number ds) ->
  (forall ds, new_count = Some ds -> number ds) ->
  hunk_new_start
    (hunk_header_line old_start old_count new_start new_count heading)
  = Some (int_of_digits new_start).
Proof.
  intros Ha Hc Hb Hd. unfold hunk_header_line.
  set (tail2 := " @@" ++ heading).
  set (tail1 := " +" ++ new_start ++ count_suffix new_count ++ tail2).
  assert (H1 : digits1 (old_start ++ count_suffix old_count ++ tail1)
               = Some (old_start, count_suffix old_count ++ tail1)).
  { apply digits1_number; [exact Ha|]. now destruct old_count. }
  assert (H2 : digits1 (new_start ++ count_suffix new_count ++ tail2)
               = Some (new_start, count_suffix new_count ++ tail2)).
  { apply digits1_number; [exact Hc|]. now destruct new_count. }
  unfold hunk_new_start.
  change (expect "@@ -"
            ("@@ -" ++ old_start ++ count_suffix old_count ++ tail1))
    with (Some (old_start ++ count_suffix old_count ++ tail1)).
  cbv beta iota. rewrite H1.
  rewrite (opt_comma_digits_count old_count tail1 Hb eq_refl eq_refl).
  change (expect " +" tail1)
    with (Some (new_start ++ count_suffix new_count ++ tail2)).
  cbv beta iota. rewrite H2.
  rewrite (opt_comma_digits_count new_count tail2 Hd eq_refl eq_refl).
  reflexivity.
Qed.

End StandardHeaders.

Section EndingLoops.

Variable file_path : string.
Variable line_number : Z.

Lemma collect_hunk_parts (ls hunk_lines rest : list string) :
  collect_hunk ls = (hunk_lines, rest) -> ls = (hunk_lines ++ rest)%list.
Proof.
  revert hunk_lines. induction ls as [|l ls IH]; intros hunk_lines H.
  - now injection H as <- <-.
  - cbn [collect_hunk] in H.
    destruct (negb (startswith l "@@") && negb (startswith l "diff --git")).
    + destruct (collect_hunk ls) as [hl rest'].
      injection H as <- <-. cbn [app]. f_equal. now apply IH.
    + now injection H as <- <-.
Qed.

(** Without a line that starts with ["@@"] and does not match the
    pattern, every turn of the loops returns or brings the end nearer. *)
Lemma fdp_step_progress (st st' : fdp_state) :
  no_stuck_line (fdp_lines st) ->
  fdp_step file_path line_number st = inl st' ->
  (fdp_measure st' < fdp_measure st)%nat /\ no_stuck_line (fdp_lines st').
Proof.
  intros Hok Hstep. destruct st as [[|l rest]|[|l rest]];
    cbn [fdp_step fdp_lines] in *.
  - discriminate.
  - inversion Hok as [|? ? _ Hrest]; subst.
    destruct (section_selected file_path l); injection Hstep as <-;
      cbn [fdp_measure fdp_lines List.length]; split; (lia || assumption).
  - injection Hstep as <-. cbn [fdp_measure fdp_lines List.length].
    split; [lia | constructor].
  - inversion Hok as [|? ? Hl Hrest]; subst.
    destruct (startswith l "@@") eqn:Hat.
    + destruct (hunk_new_start l) as [c|]; [|now destruct (Hl eq_refl)].
      destruct (collect_hunk rest) as [hunk_lines rest'] eqn:Hc.
      destruct (scan_hunk _ _ _ _); [discriminate|].
      injection Hstep as <-. apply collect_hunk_parts in Hc. subst rest.
      cbn [fdp_measure fdp_lines List.length].
      apply Forall_app in Hrest. rewrite length_app.
      split; [lia | apply Hrest].
    + destruct (startswith l "diff --git"); injection Hstep as <-;
        cbn [fdp_measure fdp_lines List.length]; split;
        (lia || assumption).
Qed.

Lemma fdp_run_ends (fuel : nat) (st : fdp_state) :
  no_stuck_line (fdp_lines st) -> (fdp_measure st < fuel)%nat ->
  exists r, fdp_run file_path line_number fuel st = Some r.
Proof.
  revert st. induction fuel as [|fuel IH]; intros st Hok Hm; [lia|].
  cbn [fdp_run].
  destruct (fdp_step file_path line_number st) as [st'|r] eqn:Hstep.
  - destruct (fdp_step_progress st st' Hok Hstep) as [Hlt Hok'].
    apply IH; [exact Hok' | lia].
  - now exists r.
Qed.

(** [find_diff_position] returns on every text that has no line starting
    with ["@@"] that the hunk pattern does not match; twice the number
    of lines, and two, bounds the turns. *)
Lemma find_diff_position_returns_unless_stuck (diff : string) :
  no_stuck_line (split_lines diff) ->
  exists r,
    find_diff_position (2 * List.length (split_lines diff) + 2) diff
      file_path line_number = Some r.
Proof.
  intros Hok. unfold find_diff_position.
  apply fdp_run_ends; [exact Hok|]. cbn [fdp_measure]. lia.
Qed.

End EndingLoops.

(** * Further properties *)

(** ** A batch as one replacement *)

Section BatchAtOnce.

Lemma replace_numbered_ext (s1 s2 : list edit) (k : Z) (orig : list string) :
  (forall j, k <= j < k + len orig ->
             replacement_for s1 j = replacement_for s2 j) ->
  replace_numbered s1 k orig = replace_numbered s2 k orig.
Proof.
  revert k. induction orig as [|l orig IH]; intros k H; [reflexivity|].
  unfold len in H. cbn [List.length] in H. cbn [replace_numbered].
  rewrite (H k) by lia. f_equal. apply IH. intros j Hj. apply H.
  unfold len in Hj. lia.
Qed.

Lemma replace_numbered_none (suggs : list edit) (k : Z) (orig : list string) :
  (forall j, k <= j < k + len orig -> replacement_for suggs j = None) ->
  replace_numbered suggs k orig = orig.
Proof.
  revert k. induction orig as [|l orig IH]; intros k H; [reflexivity|].
  unfold len in H. cbn [List.length] in H. cbn [replace_numbered].
  rewrite (H k) by lia. cbn [app]. f_equal. apply IH. intros j Hj. apply H.
  unfold len in Hj. lia.
Qed.

Lemma replace_numbered_app (suggs : list edit) (k : Z)
    (o1 o2 : list string) :
  replace_numbered suggs k (o1 ++ o2)
  = (replace_numbered suggs k o1
     ++ replace_numbered suggs (k + len o1) o2)%list.
Proof.
  revert k. induction o1 as [|l o1 IH]; intros k.
  - unfold len. cbn [app replace_numbered List.length].
    now replace (k + Z.of_nat 0) with k by lia.
  - cbn [app replace_numbered]. rewrite IH, <- app_assoc.
    unfold len. cbn [List.length].
    now replace (k + 1 + Z.of_nat (List.length o1))
      with (k + Z.of_nat (S (List.length o1))) by lia.
Qed.

Lemma replacement_for_absent (suggs : list edit) (j : Z) :
  Forall (fun e => fst e <> j) suggs -> replacement_for suggs j = None.
Proof.
  unfold replacement_for. induction 1 as [|e suggs He _ IH]; [reflexivity|].
  cbn [List.find]. now destruct (Z.eqb_spec (fst e) j).
Qed.

(** With distinct targets the order of the batch does not matter for
    what replaces a line. *)
Lemma replacement_for_perm (s1 s2 : list edit) (j : Z) :
  NoDup (map fst s1) -> Permutation s1 s2 ->
  replacement_for s1 j = replacement_for s2 j.
Proof.
  intros Hnd Hp. induction Hp as [|e s1 s2 Hp IH|e1 e2 s|s1 s2 s3 H12 IH12 H23 IH23].
  - reflexivity.
  - inversion Hnd; subst. unfold replacement_for in *. cbn [List.find].
    destruct (fst e =? j); [reflexivity | now apply IH].
  - unfold replacement_for. cbn [List.find].
    destruct (Z.eqb_spec (fst e2) j) as [H2|H2];
      destruct (Z.eqb_spec (fst e1) j) as [H1|H1]; try reflexivity.
    exfalso. inversion Hnd as [|? ? Hnotin _]; subst.
    apply Hnotin. left. congruence.
  - rewrite IH12 by exact Hnd. apply IH23.
    apply (Permutation_NoDup (Permutation_map fst H12)). exact Hnd.
Qed.

(** The loop on an ascending batch whose targets all lie in what is left
    of the original lines: [done] is what the edits so far have produced,
    [rem] the original lines from number [k] on. *)
Lemma fold_apply_one_replaces (suggs : list edit) (k : Z)
    (done rem : list string) (flag : bool) (warned : list (Z * Z)) :
  ascending suggs ->
  Forall (fun e => k <= fst e < k + len rem) suggs ->
  let st := fold_left apply_one suggs
              {| lines := (done ++ rem)%list; offset := len done - (k - 1);
                 applied := flag; warnings := warned |} in
  lines st = (done ++ replace_numbered suggs k rem)%list
  /\ warnings st = warned
  /\ applied st = match suggs with [] => flag | _ :: _ => true end.
Proof.
  revert k done rem flag warned.
  induction suggs as [|[line suggestion] suggs IH];
    intros k done rem flag warned Hasc Hin; cbn zeta.
  - cbn [fold_left lines warnings applied]. repeat split.
    f_equal. symmetry. apply replace_numbered_none. reflexivity.
  - unfold ascending in Hasc. cbn [map fst] in Hasc.
    apply StronglySorted_inv in Hasc. destruct Hasc as [Hasc Hlt].
    inversion Hin as [|? ? Hline Hin']; subst. cbn [fst] in Hline.
    cbn [fold_left].
    set (a := Z.to_nat (line - k)).
    destruct (split_at rem a) as (old & Hrem & Hlen);
      [unfold len in Hline; lia|].
    rewrite apply_one_in_bounds;
      cbn [lines offset applied warnings];
      [|unfold len in *; rewrite length_app; lia].
    replace (Z.to_nat (line - 1 + (len done - (k - 1))))
      with (List.length done + a)%nat by (unfold len; lia).
    rewrite firstn_app_2.
    replace (S (List.length done + a)) with (List.length done + S a)%nat
      by lia.
    rewrite skipn_app, skipn_all2 by lia.
    replace (List.length done + S a - List.length done)%nat with (S a)
      by lia.
    cbn [app].
    specialize (IH (line + 1)
                  (done ++ firstn a rem ++ split_lines suggestion)%list
                  (skipn (S a) rem) true warned Hasc).
    cbn zeta in IH.
    replace (len (done ++ firstn a rem ++ split_lines suggestion)
             - (line + 1 - 1))
      with (len done - (k - 1) + (len (split_lines suggestion) - 1)) in IH
      by (unfold len; rewrite !length_app, Hlen; lia).
    rewrite <- !app_assoc in IH. rewrite <- !app_assoc.
    destruct IH as (Hlines & Hwarn & Happ).
    { rewrite Forall_forall in *. intros e He.
      specialize (Hin' e He). specialize (Hlt (fst e) (in_map fst _ _ He)).
      unfold len in *. rewrite length_skipn. lia. }
    split; [|split; [exact Hwarn | rewrite Happ; now destruct suggs]].
    rewrite Hlines. f_equal.
    rewrite (f_equal (replace_numbered _ k) Hrem).
    rewrite replace_numbered_app.
    cbn [replace_numbered].
    assert (Hk : k + len (firstn a rem) = line)
      by (unfold len; rewrite Hlen; lia).
    rewrite Hk.
    assert (Hfind : replacement_for (((line, suggestion) : edit) :: suggs)
                      line = Some suggestion).
    { unfold replacement_for. cbn [List.find fst]. now rewrite Z.eqb_refl. }
    rewrite Hfind. f_equal.
    + symmetry. apply replace_numbered_none. intros j Hj.
      apply replacement_for_absent. constructor; [cbn [fst]; lia|].
      rewrite Forall_forall in *. intros e He.
      specialize (Hlt (fst e) (in_map fst _ _ He)). lia.
    + f_equal. symmetry. apply replace_numbered_ext. intros j Hj.
      unfold replacement_for. cbn [List.find fst].
      destruct (Z.eqb_spec line j); [lia | reflexivity].
Qed.

End BatchAtOnce.

(** X1: a batch whose targets are pairwise distinct and are lines of the
    file is applied in full, whatever its order: nothing is reported out
    of bounds, and the final lines are the original ones with every
    target replaced by the lines of its edit and every other line kept. *)
Theorem apply_suggestions_replaces_targets (content : string)
    (suggs : list edit) :
  NoDup (map fst suggs) ->
  Forall (fun e => 1 <= fst e <= len (split_lines content)) suggs ->
  lines (apply_suggestions content suggs)
  = replace_numbered suggs 1 (split_lines content)
  /\ warnings (apply_suggestions content suggs) = []
  /\ (suggs <> [] ->
      file_change content suggs
      = Some (join_lines (replace_numbered suggs 1 (split_lines content)))).
Proof.
  intros Hnd Hin.
  pose proof (sort_by_line_perm suggs) as Hperm.
  pose proof (sort_by_line_distinct suggs Hnd) as Hasc.
  destruct (fold_apply_one_replaces (sort_by_line suggs) 1 []
              (split_lines content) false [] Hasc) as (Hl & Hw & Ha).
  { apply (Permutation_Forall (Permutation_sym Hperm)).
    eapply Forall_impl; [|exact Hin]. intros e He. cbn beta in *. lia. }
  change (len (@nil string) - (1 - 1)) with 0 in *.
  cbn [app] in Hl, Hw, Ha.
  assert (Hrep : replace_numbered (sort_by_line suggs) 1 (split_lines content)
                 = replace_numbered suggs 1 (split_lines content)).
  { apply replace_numbered_ext. intros j _.
    symmetry. now apply replacement_for_perm, Permutation_sym. }
  unfold file_change, apply_suggestions, patch_init.
  rewrite Hl, Hw, Ha, Hrep. repeat split.
  intros Hne. destruct (sort_by_line suggs) eqn:E; [|reflexivity].
  apply Permutation_nil in Hperm. congruence.
Qed.

Lemma apply_suggestions_replaces_targets_witness :
  lines (apply_suggestions three_lines [(3, "c"); (1, "a" ++ nl ++ "b")])
  = ["a"; "b"; "line 2"; "c"].
Proof.
  refine (proj1 (apply_suggestions_replaces_targets three_lines
                   [(3, "c"); (1, "a" ++ nl ++ "b")] _ _)).
  - simpl. repeat constructor; simpl; intuition discriminate.
  - repeat constructor; vm_compute; discriminate.
Defined.

(** ** Edge cases of a batch *)


(** X3: two suggestions for the same line do not replace one another:
    the first replaces the line, and the second then replaces the last
    line of the first replacement. *)
Theorem same_line_twice (content : string) (line : Z) (s1 s2 : string) :
  1 <= line <= len (split_lines content) ->
  lines (apply_suggestions content [(line, s1); (line, s2)])
  = (firstn (Z.to_nat (line - 1)) (split_lines content)
     ++ removelast (split_lines s1) ++ split_lines s2
     ++ skipn (Z.to_nat line) (split_lines content))%list.
Proof.
  intros Hline. unfold apply_suggestions, patch_init.
  cbn [sort_by_line insert_by_line fst]. rewrite Z.leb_refl.
  cbn [fold_left].
  rewrite (apply_one_in_bounds (mk_patch (split_lines content) 0 false [])
             line s1) by (cbn [lines offset]; lia).
  cbn [lines offset].
  replace (line - 1 + 0) with (line - 1) by lia.
  replace (S (Z.to_nat (line - 1))) with (Z.to_nat line) by lia.
  set (before := firstn (Z.to_nat (line - 1)) (split_lines content)).
  set (after := skipn (Z.to_nat line) (split_lines content)).
  assert (Hb : List.length before = Z.to_nat (line - 1)).
  { unfold before. rewrite length_firstn. unfold len in Hline. lia. }
  pose proof (split_lines_not_nil s1) as Hne.
  assert (Hn1 : (1 <= List.length (split_lines s1))%nat)
    by (destruct (split_lines s1); [congruence | simpl; lia]).
  rewrite apply_one_in_bounds;
    cbn [lines offset];
    [|unfold len; rewrite !length_app; lia].
  replace (Z.to_nat (line - 1 + (0 + (len (split_lines s1) - 1))))
    with (List.length before + (List.length (split_lines s1) - 1))%nat
    by (unfold len; lia).
  rewrite firstn_app_2.
  rewrite firstn_app.
  replace (List.length (split_lines s1) - 1
           - List.length (split_lines s1))%nat with 0%nat by lia.
  cbn [firstn]. rewrite app_nil_r.
  replace (S (List.length before + (List.length (split_lines s1) - 1)))
    with (List.length before + List.length (split_lines s1))%nat by lia.
  rewrite skipn_app, skipn_all2 by lia.
  replace (List.length before + List.length (split_lines s1)
           - List.length before)%nat
    with (List.length (split_lines s1)) by lia.
  rewrite skipn_app, skipn_all, Nat.sub_diag. cbn [skipn app].
  rewrite <- app_assoc. f_equal. f_equal.
  rewrite removelast_firstn_len. f_equal. lia.
Qed.

Lemma same_line_twice_witness :
  lines (apply_suggestions three_lines
           [(2, "a" ++ nl ++ "b"); (2, "c")])
  = ["line 1"; "a"; "c"; "line 3"].
Proof.
  refine (same_line_twice three_lines 2 ("a" ++ nl ++ "b") "c" _).
  vm_compute. split; discriminate.
Defined.

(** ** The lines that the hunk pattern matches *)

Section HunkPattern.

Lemma expect_some (lit s r : string) : expect lit s = Some r -> s = lit ++ r.
Proof.
  unfold expect. destruct (startswith s lit) eqn:E; [|discriminate].
  intros H. injection H as <-. now apply startswith_split.
Qed.

Lemma span_digits_parts (s ds rest : string) :
  span_digits s = (ds, rest) ->
  s = ds ++ rest /\ all_digits ds = true /\ span_digits rest = ("", rest).
Proof.
  revert ds. induction s as [|c s IH]; intros ds H; cbn [span_digits] in H.
  - injection H as <- <-. now repeat split.
  - destruct (is_digit c) eqn:Hc.
    + destruct (span_digits s) as [ds' rest'] eqn:E.
      injection H as <- <-. destruct (IH ds' eq_refl) as (-> & Hds & Hrest).
      repeat split; [cbn [all_digits]; now rewrite Hc, Hds | exact Hrest].
    + injection H as <- <-. repeat split. cbn [span_digits]. now rewrite Hc.
Qed.

Lemma digits1_some (s ds rest : string) :
  digits1 s = Some (ds, rest) ->
  s = ds ++ rest /\ number ds /\ span_digits rest = ("", rest).
Proof.
  unfold digits1. destruct (span_digits s) as [ds' rest'] eqn:E.
  destruct (span_digits_parts _ _ _ E) as (Hs & Hds & Hrest).
  destruct ds' as [|c ds']; [discriminate|].
  intros H. injection H as <- <-. repeat split; try assumption. discriminate.
Qed.

Lemma opt_comma_digits_parts (s : string) :
  exists count,
    s = count_suffix count ++ opt_comma_digits s
    /\ forall ds, count = Some ds -> number ds.
Proof.
  unfold opt_comma_digits. destruct (expect "," s) as [s'|] eqn:E.
  - destruct (digits1 s') as [[ds rest]|] eqn:Ed.
    + destruct (digits1_some _ _ _ Ed) as (-> & Hds & _).
      exists (Some ds). split.
      * now rewrite (expect_some _ _ _ E).
      * intros ds' H. now injection H as <-.
    + exists None. split; [reflexivity | discriminate].
  - exists None. split; [reflexivity | discriminate].
Qed.

End HunkPattern.

(** X4: the hunk pattern matches a line exactly when the line starts
    with [@@ -a[,b] +c[,d] @@] for decimal numbers [a], [b], [c], [d], and
    the start line it yields is then the value of [c]. *)
Theorem hunk_new_start_iff (line : string) (c : Z) :
  hunk_new_start line = Some c <->
  exists old_start old_count new_start new_count heading,
    line = hunk_header_line old_start old_count new_start new_count heading
    /\ number old_start /\ number new_start
    /\ (forall ds, old_count = Some ds -> number ds)
    /\ (forall ds, new_count = Some ds -> number ds)
    /\ c = int_of_digits new_start.
Proof.
  split.
  - unfold hunk_new_start. intros H.
    destruct (expect "@@ -" line) as [s1|] eqn:E1; [|discriminate].
    destruct (digits1 s1) as [[a s2]|] eqn:E2; [|discriminate].
    destruct (opt_comma_digits_parts s2) as (b & Hs2 & Hb).
    destruct (expect " +" (opt_comma_digits s2)) as [s4|] eqn:E4;
      [|discriminate].
    destruct (digits1 s4) as [[cd s5]|] eqn:E5; [|discriminate].
    destruct (opt_comma_digits_parts s5) as (d & Hs5 & Hd).
    destruct (expect " @@" (opt_comma_digits s5)) as [heading|] eqn:E6;
      [|discriminate].
    injection H as <-.
    apply expect_some in E1, E4, E6.
    destruct (digits1_some _ _ _ E2) as (Hs1 & Ha & _).
    destruct (digits1_some _ _ _ E5) as (Hs4 & Hc & _).
    exists a, b, cd, d, heading.
    split; [|split; [exact Ha|split; [exact Hc|split; [exact Hb|]]]].
    + unfold hunk_header_line.
      rewrite E1, Hs1, Hs2, E4, Hs4, Hs5, E6. reflexivity.
    + split; [exact Hd | reflexivity].
  - intros (a & b & cd & d & heading & -> & Ha & Hc & Hb & Hd & ->).
    now apply hunk_new_start_standard.
Qed.

Lemma hunk_new_start_iff_witness :
  hunk_new_start (hunk_header_line "12" (Some "3") "40" None " def f():")
  = Some 40.
Proof.
  apply (proj2 (hunk_new_start_iff _ 40)).
  exists "12", (Some "3"), "40", None, " def f():".
  split; [reflexivity|]. split; [split; [discriminate | reflexivity]|].
  split; [split; [discriminate | reflexivity]|].
  split; [|split; [discriminate | reflexivity]].
  intros ds H. injection H as <-. split; [discriminate | reflexivity].
Defined.

(** ** [find_diff_position]: files that are not in the diff, and ending *)

(** X5: when no line of the text is selected as the header of the file
    (the file is not in the diff), [find_diff_position] returns [None]
    after one turn for every line of the text, whatever else the text
    holds. *)
Theorem find_diff_position_file_not_in_diff (diff file_path : string)
    (line_number : Z) :
  Forall (fun l => section_selected file_path l = false) (split_lines diff) ->
  find_diff_position (S (List.length (split_lines diff))) diff file_path
    line_number = Some None.
Proof.
  unfold find_diff_position. generalize (split_lines diff) as ls.
  induction 1 as [|l ls Hl _ IH]; [reflexivity|].
  cbn [List.length fdp_run fdp_step]. now rewrite Hl.
Qed.

Lemma find_diff_position_file_not_in_diff_witness :
  find_diff_position 7 test_diff "other.py" 2 = Some None.
Proof.
  refine (find_diff_position_file_not_in_diff test_diff "other.py" 2 _).
  vm_compute. repeat constructor.
Defined.

(** X6: on a text without a line that starts with ["@@"] and does not
    match the hunk pattern, [find_diff_position] returns within twice
    the number of lines, and two, turns: such a line is the only way for
    it not to end. *)
Theorem find_diff_position_ends (diff file_path : string) (line_number : Z) :
  no_stuck_line (split_lines diff) ->
  exists r, forall fuel,
    (2 * List.length (split_lines diff) + 2 <= fuel)%nat ->
    find_diff_position fuel diff file_path line_number = Some r.
Proof.
  intros Hok.
  destruct (find_diff_position_returns_unless_stuck file_path line_number
              diff Hok) as (r & Hr).
  exists r. intros fuel Hfuel. unfold find_diff_position in *.
  now apply fdp_run_more with (2 * List.length (split_lines diff) + 2)%nat.
Qed.

Lemma find_diff_position_ends_witness :
  exists r, forall fuel,
    (2 * List.length (split_lines (test_diff ++ nl ++ "@@ -9 +9 @@")) + 2
     <= fuel)%nat ->
    find_diff_position fuel (test_diff ++ nl ++ "@@ -9 +9 @@") "test.py" 9
    = Some r.
Proof.
  apply (find_diff_position_ends (test_diff ++ nl ++ "@@ -9 +9 @@")
           "test.py" 9).
  vm_compute. repeat constructor; intros; discriminate.
Defined.

(** ** Parsing a suggestion block back *)

Section BlockRoundTrip.

Lemma rstrip_append (a b : string) :
  b <> "" -> rstrip b = b -> rstrip (a ++ b) = a ++ b.
Proof.
  intros Hne Hb. induction a as [|c a IH]; [exact Hb|].
  cbn [append rstrip]. rewrite IH.
  destruct (a ++ b) eqn:E; [|reflexivity].
  destruct a; [cbn in E; congruence | discriminate].
Qed.

Lemma join_lines_snoc (ls : list string) (l : string) :
  ls <> [] -> join_lines (ls ++ [l]) = join_lines ls ++ nl ++ l.
Proof.
  induction ls as [|x ls IH]; [congruence|]. intros _.
  destruct ls as [|y ls]; [reflexivity|].
  change ((x :: y :: ls) ++ [l])%list with (x :: ((y :: ls) ++ [l]))%list.
  rewrite join_lines_cons by (cbn [app]; discriminate).
  rewrite IH by discriminate.
  rewrite (join_lines_cons x (y :: ls)) by discriminate.
  now rewrite !append_assoc.
Qed.

Lemma count_context_removed (removed : list string) :
  count_context (map (append "-") removed) = 0.
Proof.
  unfold count_context, len.
  induction removed as [|x removed IH]; [reflexivity|]. exact IH.
Qed.

Lemma added_text_added (added : list string) :
  added_text (map (append "+") added) = join_lines added.
Proof.
  unfold added_text. f_equal.
  induction added as [|x added IH]; [reflexivity|].
  cbn [map filter]. change (is_added ("+" ++ x)) with true.
  cbn [map]. now rewrite IH.
Qed.

Lemma block_lines_one_line (file_path hunk_header : string)
    (removed added : list string) :
  one_line file_path = true -> one_line hunk_header = true ->
  Forall (fun l => one_line l = true) removed ->
  Forall (fun l => one_line l = true) added ->
  Forall (fun l => one_line l = true)
    (("--- a/" ++ file_path) :: ("+++ b/" ++ file_path) :: hunk_header
     :: (map (append "-") removed ++ map (append "+") added)%list).
Proof.
  intros Hp Hh Hr Ha.
  constructor; [cbn beta; rewrite one_line_append, Hp; reflexivity|].
  constructor; [cbn beta; rewrite one_line_append, Hp; reflexivity|].
  constructor; [exact Hh|].
  apply Forall_app. split; apply Forall_map.
  - eapply Forall_impl; [|exact Hr]. intros l Hl. cbn beta in *.
    now rewrite one_line_append, Hl.
  - eapply Forall_impl; [|exact Ha]. intros l Hl. cbn beta in *.
    now rewrite one_line_append, Hl.
Qed.

(** [strip] leaves a block as it is when its last added line does not
    end with white space. *)
Lemma strip_suggestion_block (file_path hunk_header : string)
    (removed added : list string) :
  added <> [] -> rstrip (last added "") = last added "" ->
  strip (suggestion_block file_path hunk_header removed added)
  = suggestion_block file_path hunk_header removed added.
Proof.
  intros Hne Hlast. unfold strip.
  assert (Hl : lstrip (suggestion_block file_path hunk_header removed added)
               = suggestion_block file_path hunk_header removed added)
    by reflexivity.
  rewrite Hl. unfold suggestion_block.
  destruct (exists_last Hne) as (init & lst & ->).
  rewrite last_last in Hlast.
  rewrite map_app. cbn [map].
  match goal with
  | |- context [join_lines (?h1 :: ?h2 :: ?h3 :: (?r ++ ?i ++ [?x])%list)] =>
      replace (h1 :: h2 :: h3 :: (r ++ i ++ [x])%list)
        with ((h1 :: h2 :: h3 :: (r ++ i)%list) ++ [x])%list
        by (cbn [app]; now rewrite app_assoc)
  end.
  rewrite join_lines_snoc by discriminate.
  rewrite <- append_assoc. apply rstrip_append; [discriminate|].
  cbn [append rstrip]. rewrite Hlast. now destruct lst.
Qed.

End BlockRoundTrip.

(** A block of the shape of [suggestion_block] is parsed to its path, the
    start of its hunk and its added lines. *)
Lemma parse_diff_for_suggestions_block (file_path hunk_header : string)
    (n : Z) (removed added : list string) :
  one_line file_path = true -> one_line hunk_header = true ->
  hunk_new_start hunk_header = Some n ->
  Forall (fun l => one_line l = true) removed ->
  Forall (fun l => one_line l = true) added ->
  added <> [] -> rstrip (last added "") = last added "" ->
  parse_diff_for_suggestions
    (suggestion_block file_path hunk_header removed added)
  = Some (file_path, n, join_lines added).
Proof.
  intros Hp Hh Hn Hr Ha Hne Hlast. unfold parse_diff_for_suggestions.
  rewrite strip_suggestion_block by assumption.
  unfold suggestion_block.
  rewrite split_join_lines;
    [|discriminate | now apply block_lines_one_line].
  destruct added as [|a added]; [congruence|]. cbn [map].
  pose proof (parse_diff_lines_added ("--- a/" ++ file_path) hunk_header
                ("+" ++ a) n ["+++ b/" ++ file_path] []
                (map (append "-") removed) (map (append "+") added))
    as Hparse.
  cbn [app] in Hparse. rewrite Hparse; clear Hparse.
  - rewrite count_context_removed.
    change (added_text (("+" ++ a) :: map (append "+") added))
      with (added_text (map (append "+") (a :: added))).
    rewrite added_text_added. f_equal. f_equal. f_equal. lia.
  - apply startswith_append.
  - repeat constructor.
  - constructor.
  - exact Hn.
  - apply Forall_map, Forall_forall. reflexivity.
  - apply Forall_map, Forall_forall. reflexivity.
  - reflexivity.
Qed.

(** X7: a block made of the two path lines, a hunk header with start
    [n], lines to remove and at least one line to add parses back to the
    path, [n] and the added lines, provided the last added line does not
    end with white space (which [strip] would cut). *)
Theorem parse_suggestion_block (file_path hunk_header : string) (n : Z)
    (removed added : list string) :
  one_line file_path = true -> one_line hunk_header = true ->
  hunk_new_start hunk_header = Some n ->
  Forall (fun l => one_line l = true) removed ->
  Forall (fun l => one_line l = true) added ->
  added <> [] -> rstrip (last added "") = last added "" ->
  parse_diff_for_suggestions
    (suggestion_block file_path hunk_header removed added)
  = Some (file_path, n, join_lines added).
Proof. apply parse_diff_for_suggestions_block. Qed.

Lemma parse_suggestion_block_witness :
  parse_diff_for_suggestions
    (suggestion_block "src/app.py" "@@ -7,2 +7,3 @@" ["x = 1"; "y = 2"]
       ["x = 10"; ""; "y = 20"])
  = Some ("src/app.py", 7, "x = 10" ++ nl ++ "" ++ nl ++ "y = 20").
Proof.
  apply (parse_suggestion_block "src/app.py" "@@ -7,2 +7,3 @@" 7
           ["x = 1"; "y = 2"] ["x = 10"; ""; "y = 20"]);
    try reflexivity; try discriminate; repeat constructor.
Defined.

(** ** Suggestions of a text, block by block *)

Section SuggestionsOfText.

Lemma extract_diff_blocks_iff (analysis : string) (blocks : list string) :
  extract_diff_blocks analysis = Some blocks <-> fenced_blocks analysis blocks.
Proof.
  unfold extract_diff_blocks.
  destruct (diff_blocks_loop_fenced analysis (S (String.length analysis))
              0 []) as (blocks' & H & Hf); [lia | lia |].
  cbn [app drop] in *. rewrite H. split.
  - intros E. injection E as <-. exact Hf.
  - intros Hf'. f_equal. now apply fenced_blocks_unique with analysis.
Qed.

Lemma parse_code_suggestions_blocks (analysis : string)
    (blocks : list string) :
  fenced_blocks analysis blocks ->
  parse_code_suggestions analysis
  = Some (flat_map (fun b => kept_suggestion (parse_diff_for_suggestions b))
            blocks).
Proof.
  intros H. apply extract_diff_blocks_iff in H.
  unfold parse_code_suggestions. now rewrite H.
Qed.

End SuggestionsOfText.

(** X8: [parse_code_suggestions] always returns.  A text without a start
    marker, or with no end marker after its first start marker, has no
    suggestions; otherwise its suggestions are the one parsed from the
    text between the first start marker and the first end marker after
    it (if that parses), followed by the suggestions of the text after
    that end marker. *)
Theorem parse_code_suggestions_unfolds (analysis : string) :
  (exists suggestions, parse_code_suggestions analysis = Some suggestions)
  /\ (absent fence_open analysis -> parse_code_suggestions analysis = Some [])
  /\ (forall pre tail,
        first_split fence_open analysis pre tail ->
        (absent fence_close tail -> parse_code_suggestions analysis = Some [])
        /\ forall block rest,
             first_split fence_close tail block rest ->
             exists later,
               parse_code_suggestions rest = Some later
               /\ parse_code_suggestions analysis
                  = Some (kept_suggestion (parse_diff_for_suggestions block)
                          ++ later)%list).
Proof.
  split; [|split].
  - unfold parse_code_suggestions.
    destruct (diff_blocks_loop_fenced analysis (S (String.length analysis))
                0 []) as (blocks & H & _); [lia | lia |].
    unfold extract_diff_blocks. rewrite H. eexists. reflexivity.
  - intros Ha.
    now rewrite (parse_code_suggestions_blocks analysis [] (fenced_none _ Ha)).
  - intros pre tail Hopen. split.
    + intros Ha.
      now rewrite (parse_code_suggestions_blocks analysis []
                     (fenced_unterminated _ _ _ Hopen Ha)).
    + intros block rest Hclose.
      destruct (diff_blocks_loop_fenced rest (S (String.length rest)) 0 [])
        as (blocks & _ & Hrest); [lia | lia |].
      cbn [drop] in Hrest.
      exists (flat_map
                (fun b => kept_suggestion (parse_diff_for_suggestions b))
                blocks).
      split; [now apply parse_code_suggestions_blocks|].
      now rewrite (parse_code_suggestions_blocks analysis (block :: blocks)
                     (fenced_block _ _ _ _ _ _ Hopen Hclose Hrest)).
Qed.

Lemma parse_code_suggestions_unfolds_witness :
  parse_code_suggestions "no fences here" = Some [].
Proof.
  apply (proj1 (proj2 (parse_code_suggestions_unfolds "no fences here"))).
  apply (find_from_absent fence_open "no fences here" 0). reflexivity.
Defined.

(** ** The main comment *)

Section MainComment.

Lemma drop_all (s : string) : drop (String.length s) s = "".
Proof. induction s as [|c s IH]; [reflexivity | exact IH]. Qed.

Lemma drop_append_le (j : nat) (p x : string) :
  (j <= String.length p)%nat -> drop j (p ++ x) = drop j p ++ x.
Proof.
  revert p. induction j as [|j IH]; intros p H; [reflexivity|].
  destruct p as [|c p]; [simpl in H; lia|]. apply IH. simpl in H. lia.
Qed.

Lemma startswith_append_le (q x m : string) :
  (String.length m <= String.length q)%nat ->
  startswith (q ++ x) m = startswith q m.
Proof.
  revert q. induction m as [|c m IH]; intros q H; [reflexivity|].
  destruct q as [|d q]; [simpl in H; lia|].
  cbn [append startswith]. rewrite IH; [reflexivity | simpl in H; lia].
Qed.

(** An occurrence by its place is an occurrence as a part. *)
Lemma occurrence_parts (m s : string) (j : nat) :
  (j <= String.length s)%nat -> startswith (drop j s) m = true ->
  s = take j s ++ m ++ drop (j + String.length m) s
  /\ String.length (take j s) = j.
Proof.
  intros Hj H. split; [|now apply length_take].
  rewrite <- drop_drop, <- (startswith_split _ _ H). symmetry.
  apply take_drop.
Qed.

Lemma absent_of_contains (m s : string) : contains m s = false -> absent m s.
Proof.
  intros H pre post Heq.
  assert (contains m s = true) by (apply contains_iff; eauto). congruence.
Qed.


(** A character that is not in [n] is not where an occurrence starts
    within [n]. *)
Lemma no_occurrence_within (c : ascii) (m n x : string) (j : nat) :
  without_char c n = true -> (j < String.length n)%nat ->
  startswith (drop j (n ++ x)) (String c m) = false.
Proof.
  revert j. induction n as [|d n IH]; intros j Hn Hj; [simpl in Hj; lia|].
  cbn [without_char] in Hn. apply andb_true_iff in Hn. destruct Hn as [Hd Hn].
  destruct j as [|j].
  - cbn [drop append startswith]. apply negb_true_iff in Hd. now rewrite Hd.
  - cbn [append drop]. apply IH; [exact Hn | simpl in Hj; lia].
Qed.

(** What [update_main_comment] returns, by the two searches. *)
Lemma update_main_comment_cases (analysis : string) :
  (absent suggestions_heading analysis /\ update_main_comment analysis = analysis)
  \/ exists pre tail,
       first_split suggestions_heading analysis pre tail
       /\ ((absent "###" tail
            /\ update_main_comment analysis = pre ++ inline_notice)
           \/ exists section rest,
                first_split "###" tail section rest
                /\ update_main_comment analysis
                   = pre ++ inline_notice ++ "###" ++ rest).
Proof.
  unfold update_main_comment.
  pose proof (find_found analysis suggestions_heading 0 (Nat.le_0_l _))
    as Hopen.
  destruct (find analysis suggestions_heading 0) as [r|]; [|now left].
  right. destruct Hopen as (i & -> & Hfs & Hb).
  cbn [drop Nat.add] in *.
  change (String.length suggestions_heading) with 21%nat in *.
  exists (take i analysis), (drop (i + 21) analysis). split; [exact Hfs|].
  pose proof (find_found analysis "###" (i + 21) Hb) as Hnext.
  destruct (find analysis "###" (i + 21)) as [e|].
  - right. destruct Hnext as (j & -> & Hfs' & Hb').
    change (String.length "###") with 3%nat in *.
    exists (take j (drop (i + 21) analysis)),
      (drop (i + 21 + j + 3) analysis).
    split; [exact Hfs'|]. f_equal. f_equal.
    destruct Hfs' as [Heq _].
    rewrite <- drop_drop. rewrite Heq at 1.
    rewrite <- (length_take j (drop (i + 21) analysis)) at 1
      by (rewrite length_drop; lia).
    now rewrite drop_append.
  - left. split; [exact Hnext|]. now rewrite drop_all, append_nil_r.
Qed.

End MainComment.

(** X9: [update_main_comment] leaves a text without the heading
    [### Code Suggestions] as it is.  Otherwise it keeps what is before
    the first heading, puts the notice in the place of the section, and
    keeps the text from the next [###] after the heading line on; when
    there is no such [###], nothing follows the notice. *)
Theorem update_main_comment_replaces_section (analysis : string) :
  (absent suggestions_heading analysis -> update_main_comment analysis = analysis)
  /\ (forall pre tail,
        first_split suggestions_heading analysis pre tail ->
        (absent "###" tail ->
         update_main_comment analysis = pre ++ inline_notice)
        /\ (forall section rest,
              first_split "###" tail section rest ->
              update_main_comment analysis
              = pre ++ inline_notice ++ "###" ++ rest)).
Proof.
  destruct (update_main_comment_cases analysis)
    as [[Ha Hu]|(pre & tail & Hfs & Hcases)].
  - split; [now intros _|]. intros pre tail Hfs.
    exfalso. exact (first_split_not_absent _ _ _ _ Hfs Ha).
  - split; [intros Ha; exfalso;
            exact (first_split_not_absent _ _ _ _ Hfs Ha)|].
    intros pre' tail' Hfs'.
    destruct (first_split_unique _ _ _ _ _ _ Hfs Hfs') as [<- <-].
    destruct Hcases as [[Ha Hu]|(section & rest & Hnext & Hu)]; split.
    + now intros _.
    + intros section rest Hnext. exfalso.
      exact (first_split_not_absent _ _ _ _ Hnext Ha).
    + intros Ha. exfalso. exact (first_split_not_absent _ _ _ _ Hnext Ha).
    + intros section' rest' Hnext'.
      now destruct (first_split_unique _ _ _ _ _ _ Hnext Hnext') as [_ <-].
Qed.

Lemma update_main_comment_replaces_section_witness :
  update_main_comment "## Summary" = "## Summary".
Proof.
  apply (proj1 (update_main_comment_replaces_section "## Summary")).
  now apply absent_of_contains.
Defined.

(** X10: [update_main_comment] is idempotent: a comment that has been
    updated is left as it is by a second update. *)
Theorem update_main_comment_idempotent (analysis : string) :
  update_main_comment (update_main_comment analysis)
  = update_main_comment analysis.
Proof.
  destruct (update_main_comment_cases analysis)
    as [[Ha Hu]|(pre & tail & Hfs & Hcases)].
  - now rewrite Hu.
  - set (notice := "- Suggestions posted as inline comments below." ++ nl).
    assert (Hshape : forall x,
               pre ++ inline_notice ++ x
               = pre ++ suggestions_heading ++ (notice ++ x)).
    { intros x. reflexivity. }
    assert (Hfirst : forall x,
               first_split suggestions_heading (pre ++ inline_notice ++ x)
                 pre (notice ++ x)).
    { intros x. split; [apply Hshape|]. intros pre' post' Heq.
      destruct (Nat.le_gt_cases (String.length pre) (String.length pre'))
        as [|Hlt]; [assumption|]. exfalso.
      pose proof (occurrence_at _ _ _ _ Heq) as Hocc.
      rewrite Hshape, <- append_assoc in Hocc.
      rewrite drop_append_le in Hocc by (rewrite length_append; lia).
      rewrite startswith_append_le in Hocc
        by (rewrite length_drop, length_append;
            change (String.length suggestions_heading) with 21%nat; lia).
      destruct Hfs as [Heqa Hmin].
      assert (Hocc' : startswith (drop (String.length pre') analysis)
                        suggestions_heading = true).
      { rewrite Heqa, <- append_assoc.
        rewrite drop_append_le by (rewrite length_append; lia).
        rewrite startswith_append_le; [exact Hocc|].
        rewrite length_drop, length_append.
        change (String.length suggestions_heading) with 21%nat. lia. }
      destruct (occurrence_parts suggestions_heading analysis
                  (String.length pre')) as [Hparts Hlen]; [|exact Hocc'|].
      { rewrite Heqa, length_append. lia. }
      specialize (Hmin _ _ Hparts). lia. }
    destruct Hcases as [[Ha Hu]|(section & rest & Hnext & Hu)]; rewrite Hu.
    + rewrite <- (append_nil_r (pre ++ inline_notice)), append_assoc.
      destruct (update_main_comment_cases (pre ++ inline_notice ++ ""))
        as [[Ha' _]|(pre' & tail' & Hfs' & Hcases')].
      * exfalso. exact (first_split_not_absent _ _ _ _ (Hfirst "") Ha').
      * destruct (first_split_unique _ _ _ _ _ _ (Hfirst "") Hfs')
          as [<- <-].
        destruct Hcases' as [[_ Hu']|(section' & rest' & Hnext' & _)].
        -- now rewrite Hu', append_nil_r.
        -- exfalso. apply (first_split_not_absent _ _ _ _ Hnext').
           now apply absent_of_contains.
    + destruct (update_main_comment_cases
                  (pre ++ inline_notice ++ "###" ++ rest))
        as [[Ha' _]|(pre' & tail' & Hfs' & Hcases')].
      * exfalso.
        exact (first_split_not_absent _ _ _ _ (Hfirst ("###" ++ rest)) Ha').
      * destruct (first_split_unique _ _ _ _ _ _
                    (Hfirst ("###" ++ rest)) Hfs') as [<- <-].
        assert (Hsec : first_split "###" (notice ++ "###" ++ rest)
                         notice rest).
        { split; [reflexivity|]. intros p' q' Heq.
          destruct (Nat.le_gt_cases (String.length notice)
                      (String.length p')) as [|Hlt]; [assumption|].
          exfalso. pose proof (occurrence_at _ _ _ _ Heq) as Hocc.
          rewrite (no_occurrence_within "#" "##" notice _ _ eq_refl Hlt)
            in Hocc. discriminate. }
        destruct Hcases' as [[Ha' _]|(section' & rest' & Hnext' & Hu')].
        -- exfalso. exact (first_split_not_absent _ _ _ _ Hsec Ha').
        -- destruct (first_split_unique _ _ _ _ _ _ Hsec Hnext')
             as [_ <-]. exact Hu'.
Qed.


(** ** [sanitize_text] *)

Section SanitizeText.

Lemma without_char_re_sub_from (c : ascii) (match_at : string -> option nat)
    (skip : nat) (s : string) :
  without_char c s = true ->
  without_char c (re_sub_from match_at skip s) = true.
Proof.
  revert skip. induction s as [|d s IH]; intros skip H; [reflexivity|].
  cbn [without_char] in H. apply andb_true_iff in H. destruct H as [Hd Hs].
  cbn [re_sub_from]. destruct skip as [|skip]; [|now apply IH].
  destruct (match_at (String d s)) as [[|n]|];
    cbn [without_char]; rewrite ?Hd; cbn [andb]; now apply IH.
Qed.

Lemma until_gt_none (s : string) :
  until_gt s = None -> without_char ">" s = true.
Proof.
  induction s as [|c s IH]; [reflexivity|]. cbn [until_gt without_char].
  rewrite Ascii.eqb_sym. destruct (Ascii.eqb ">" c); [discriminate|].
  destruct (until_gt s); [discriminate|]. intros _. now apply IH.
Qed.

Lemma until_gt_zero (s : string) :
  until_gt s = Some O -> exists s', s = String ">" s'.
Proof.
  destruct s as [|c s]; [discriminate|]. cbn [until_gt].
  destruct (Ascii.eqb c ">") eqn:E.
  - apply Ascii.eqb_eq in E. subst c. now exists s.
  - destruct (until_gt s); discriminate.
Qed.

Lemma match_tag_starts (s : string) (n : nat) :
  match_tag s = Some n -> exists s', s = String "<" s'.
Proof.
  destruct s as [|c s]; [discriminate|]. unfold match_tag.
  destruct c as [[] [] [] [] [] [] [] []]; try discriminate. now exists s.
Qed.

Lemma match_tag_lt (s : string) :
  match_tag (String "<" s)
  = match until_gt s with Some (S k) => Some (1 + S k + 1)%nat | _ => None end.
Proof. reflexivity. Qed.

(** After [re.sub(r"<[^>]+>", "", s)] no ["<"] opens a tag. *)
Lemma tag_free_re_sub_tag (skip : nat) (s : string) :
  tag_free (re_sub_from match_tag skip s) = true.
Proof.
  revert skip. induction s as [|c s IH]; intros skip; [reflexivity|].
  cbn [re_sub_from]. destruct skip as [|skip]; [|apply IH].
  destruct (match_tag (String c s)) as [[|n]|] eqn:E; try apply IH.
  - destruct (match_tag_starts _ _ E) as [s' [= -> <-]].
    rewrite match_tag_lt in E.
    destruct (until_gt s) as [[|k]|]; cbn in E; discriminate.
  - cbn [tag_free]. rewrite IH, andb_true_r.
    destruct (Ascii.eqb c "<") eqn:Ec; [|reflexivity].
    apply Ascii.eqb_eq in Ec. subst c. rewrite match_tag_lt in E.
    cbn [negb orb].
    destruct (until_gt s) as [[|k]|] eqn:Eu; [|discriminate|].
    + apply until_gt_zero in Eu. destruct Eu as [s' ->].
      cbn [re_sub_from]. reflexivity.
    + apply until_gt_none in Eu.
      rewrite (without_char_re_sub_from _ _ _ _ Eu). apply orb_true_r.
Qed.

Lemma not_angle_gt (c : ascii) (s : string) :
  all_chars not_angle (String c s) = true -> Ascii.eqb c ">" = false.
Proof.
  cbn [all_chars]. unfold not_angle. intros H.
  destruct (Ascii.eqb c ">"); [|reflexivity].
  now rewrite andb_false_r in H.
Qed.

(** Taking out matches that hold neither ["<"] nor [">"] keeps a text
    free of tags. *)
Lemma tag_free_re_sub_from (match_at : string -> option nat) :
  (forall s n, match_at s = Some n -> all_chars not_angle (take n s) = true) ->
  forall (s : string) (skip : nat),
    tag_free s = true -> all_chars not_angle (take skip s) = true ->
    tag_free (re_sub_from match_at skip s) = true.
Proof.
  intros Hm. induction s as [|c s IH]; intros skip Hs Hk; [reflexivity|].
  cbn [tag_free] in Hs. apply andb_true_iff in Hs. destruct Hs as [Hc Hs].
  cbn [re_sub_from]. destruct skip as [|skip].
  - assert (Hkeep : tag_free (String c (re_sub_from match_at 0 s)) = true).
    { cbn [tag_free]. rewrite (IH O Hs eq_refl), andb_true_r.
      destruct (Ascii.eqb c "<"); [|reflexivity]. cbn [negb orb] in *.
      apply orb_true_iff in Hc. destruct Hc as [Hc|Hc].
      - apply startswith_iff in Hc. destruct Hc as [r ->].
        change (">" ++ r) with (String ">" r). cbn [re_sub_from].
        destruct (match_at (String ">" r)) as [[|n]|] eqn:E; try reflexivity.
        apply Hm in E. cbn [take] in E. apply not_angle_gt in E.
        discriminate.
      - rewrite (without_char_re_sub_from _ _ _ _ Hc). apply orb_true_r. }
    destruct (match_at (String c s)) as [[|n]|] eqn:E; try exact Hkeep.
    apply Hm in E. cbn [take all_chars] in E.
    apply andb_true_iff in E. destruct E as [_ E]. now apply IH.
  - cbn [take all_chars] in Hk. apply andb_true_iff in Hk.
    destruct Hk as [_ Hk]. now apply IH.
Qed.

Lemma all_chars_app (cl : ascii -> bool) (a b : string) :
  all_chars cl (a ++ b) = all_chars cl a && all_chars cl b.
Proof.
  induction a as [|c a IH]; [reflexivity|]. cbn [append all_chars].
  now rewrite IH, andb_assoc.
Qed.

Lemma all_chars_weaken (cl cl' : ascii -> bool) (s : string) :
  (forall c, cl c = true -> cl' c = true) ->
  all_chars cl s = true -> all_chars cl' s = true.
Proof.
  intros H. induction s as [|c s IH]; [reflexivity|]. cbn [all_chars].
  intros Hs. apply andb_true_iff in Hs. destruct Hs as [Hc Hs].
  now rewrite (H _ Hc), IH.
Qed.

Lemma span_length_all (cl : ascii -> bool) (s : string) :
  all_chars cl (take (span_length cl s) s) = true.
Proof.
  induction s as [|c s IH]; [reflexivity|]. cbn [span_length].
  destruct (cl c) eqn:E; [|reflexivity]. cbn [take all_chars].
  now rewrite E, IH.
Qed.

Lemma take_add (n m : nat) (s : string) :
  take (n + m) s = take n s ++ take m (drop n s).
Proof.
  revert s. induction n as [|n IH]; intros s; [reflexivity|].
  destruct s as [|c s]; [now destruct m|]. cbn [Nat.add take drop append].
  now rewrite IH.
Qed.

Lemma is_word_not_angle (c : ascii) : is_word c = true -> not_angle c = true.
Proof. destruct c as [[] [] [] [] [] [] [] []]; vm_compute; congruence. Qed.

Lemma is_space_not_angle (c : ascii) : is_space c = true -> not_angle c = true.
Proof. destruct c as [[] [] [] [] [] [] [] []]; vm_compute; congruence. Qed.

Lemma lower_letter_not_angle (c d : ascii) :
  not_angle c = true -> Ascii.eqb c (lower_letter d) = true ->
  not_angle d = true.
Proof.
  intros Hc E. apply Ascii.eqb_eq in E. subst c. revert Hc.
  destruct d as [[] [] [] [] [] [] [] []]; vm_compute; congruence.
Qed.

Lemma startswith_nocase_not_angle (p s : string) :
  all_chars not_angle p = true -> startswith_nocase s p = true ->
  all_chars not_angle (take (String.length p) s) = true.
Proof.
  revert s. induction p as [|c p IH]; intros s Hp H; [reflexivity|].
  destruct s as [|d s]; [discriminate|]. cbn [startswith_nocase] in H.
  cbn [all_chars] in Hp. apply andb_true_iff in Hp, H.
  destruct Hp as [Hc Hp], H as [Hd H].
  cbn [String.length take all_chars].
  now rewrite (lower_letter_not_angle c d), IH.
Qed.

Lemma startswith_not_angle (p s : string) :
  all_chars not_angle p = true -> startswith s p = true ->
  all_chars not_angle (take (String.length p) s) = true.
Proof.
  intros Hp H. apply startswith_iff in H. destruct H as [r ->].
  replace (take (String.length p) (p ++ r)) with p; [exact Hp|].
  clear Hp. induction p as [|c p IH]; [reflexivity|].
  cbn [append String.length take]. now rewrite <- IH.
Qed.

Lemma match_javascript_not_angle (s : string) (n : nat) :
  match_javascript s = Some n -> all_chars not_angle (take n s) = true.
Proof.
  unfold match_javascript.
  destruct (startswith_nocase s "javascript:") eqn:E; [|discriminate].
  intros [= <-].
  now apply (startswith_nocase_not_angle "javascript:").
Qed.

Lemma match_handler_not_angle (s : string) (n : nat) :
  match_handler s = Some n -> all_chars not_angle (take n s) = true.
Proof.
  unfold match_handler.
  destruct (startswith_nocase s "on") eqn:E; [|discriminate].
  destruct (span_length is_word (drop 2 s)) as [|w'] eqn:Ew; [discriminate|].
  rewrite <- Ew.
  set (w := span_length is_word (drop 2 s)).
  set (sp := span_length is_space (drop w (drop 2 s))).
  destruct (startswith (drop (w + sp) (drop 2 s)) "=") eqn:Eq; [|discriminate].
  intros [= <-].
  replace (S (S (w + sp + 1))) with (2 + (w + (sp + 1)))%nat by lia.
  rewrite !take_add, !all_chars_app.
  pose proof (startswith_nocase_not_angle "on" s eq_refl E) as H1.
  pose proof (all_chars_weaken is_word not_angle _ is_word_not_angle
                (span_length_all is_word (drop 2 s))) as H2.
  pose proof (all_chars_weaken is_space not_angle _ is_space_not_angle
                (span_length_all is_space (drop w (drop 2 s)))) as H3.
  rewrite drop_drop in Eq.
  pose proof (startswith_not_angle "=" _ eq_refl Eq) as H4.
  cbn [String.length] in H1, H4. fold w in H2. fold sp in H3.
  rewrite !drop_drop.
  rewrite drop_drop in H3.
  now rewrite H1, H2, H3, <- Nat.add_assoc, H4.
Qed.

Lemma without_char_app (c : ascii) (a b : string) :
  without_char c (a ++ b) = without_char c a && without_char c b.
Proof.
  induction a as [|d a IH]; [reflexivity|]. cbn [append without_char].
  now rewrite IH, andb_assoc.
Qed.

Lemma tag_free_suffix (a b : string) :
  tag_free (a ++ b) = true -> tag_free b = true.
Proof.
  induction a as [|c a IH]; [trivial|]. cbn [append tag_free].
  intros H. apply andb_true_iff in H. now apply IH.
Qed.

Lemma tag_free_prefix (a b : string) :
  tag_free (a ++ b) = true -> tag_free a = true.
Proof.
  induction a as [|c a IH]; [reflexivity|]. cbn [append tag_free].
  intros H. apply andb_true_iff in H. destruct H as [Hc H].
  rewrite (IH H), andb_true_r.
  destruct (negb (Ascii.eqb c "<")); [reflexivity|]. cbn [orb] in *.
  apply orb_true_iff in Hc. destruct Hc as [Hc|Hc].
  - destruct a as [|d a]; [reflexivity|]. cbn [append] in Hc.
    cbn [startswith] in *. now rewrite Hc.
  - rewrite without_char_app in Hc. apply andb_true_iff in Hc.
    destruct Hc as [-> _]. apply orb_true_r.
Qed.

Lemma not_angle_tag_free (b : string) :
  all_chars not_angle b = true ->
  tag_free b = true /\ without_char ">" b = true.
Proof.
  induction b as [|c b IH]; [now split|]. cbn [all_chars]. intros H.
  apply andb_true_iff in H. destruct H as [Hc Hb].
  destruct (IH Hb) as [IH1 IH2]. cbn [tag_free without_char].
  rewrite IH1, IH2. unfold not_angle in Hc. apply andb_true_iff in Hc.
  destruct Hc as [Hlt Hgt]. rewrite Hlt. rewrite (Ascii.eqb_sym ">" c), Hgt.
  now split.
Qed.

Lemma tag_free_app (a b : string) :
  tag_free a = true -> all_chars not_angle b = true ->
  tag_free (a ++ b) = true.
Proof.
  intros Ha Hb. destruct (not_angle_tag_free b Hb) as [Hb1 Hb2].
  induction a as [|c a IH]; [exact Hb1|]. cbn [append tag_free] in *.
  apply andb_true_iff in Ha. destruct Ha as [Hc Ha].
  rewrite (IH Ha), andb_true_r.
  destruct (negb (Ascii.eqb c "<")); [reflexivity|]. cbn [orb] in *.
  apply orb_true_iff in Hc. destruct Hc as [Hc|Hc].
  - apply startswith_iff in Hc. destruct Hc as [r ->].
    now rewrite append_assoc, startswith_append.
  - now rewrite without_char_app, Hc, Hb2, orb_true_r.
Qed.

Lemma lstrip_suffix (s : string) : exists a, s = a ++ lstrip s.
Proof.
  induction s as [|c s [a IH]]; [now exists ""|]. cbn [lstrip].
  destruct (is_space c); [|now exists ""].
  exists (String c a). cbn [append]. now rewrite <- IH.
Qed.

Lemma rstrip_prefix (s : string) : exists b, s = rstrip s ++ b.
Proof.
  induction s as [|c s [b IH]]; [now exists ""|]. cbn [rstrip].
  destruct (rstrip s) as [|d r] eqn:E.
  - destruct (is_space c); [now exists (String c s)|now exists s].
  - exists b. cbn [append] in *. now rewrite <- IH.
Qed.

Lemma strip_parts (s : string) : exists a b, s = a ++ strip s ++ b.
Proof.
  destruct (lstrip_suffix s) as [a Ha].
  destruct (rstrip_prefix (lstrip s)) as [b Hb].
  exists a, b. unfold strip. now rewrite <- Hb.
Qed.

Lemma tag_free_strip (s : string) :
  tag_free s = true -> tag_free (strip s) = true.
Proof.
  destruct (strip_parts s) as (a & b & E). intros H. rewrite E in H.
  exact (tag_free_prefix _ _ (tag_free_suffix _ _ H)).
Qed.

Lemma tag_free_limit_length (s : string) :
  tag_free s = true -> tag_free (limit_length s) = true.
Proof.
  intros H. unfold limit_length.
  destruct (max_length <? String.length s)%nat; [|exact H].
  apply tag_free_app; [|reflexivity].
  apply (tag_free_prefix _ (drop max_length s)). now rewrite take_drop.
Qed.

(** What [sanitize_text] returns has no ["<"] that opens a tag. *)
Lemma tag_free_sanitize_text (text : string) :
  tag_free (sanitize_text text) = true.
Proof.
  destruct text as [|c text]; [reflexivity|]. unfold sanitize_text.
  apply tag_free_strip, tag_free_limit_length. unfold re_sub.
  apply (tag_free_re_sub_from _ match_handler_not_angle); [|reflexivity].
  apply (tag_free_re_sub_from _ match_javascript_not_angle); [|reflexivity].
  apply tag_free_re_sub_tag.
Qed.

Lemma length_re_sub_from (match_at : string -> option nat) (skip : nat)
    (s : string) :
  (String.length (re_sub_from match_at skip s) <= String.length s)%nat.
Proof.
  revert skip. induction s as [|c s IH]; intros skip; [reflexivity|].
  cbn [re_sub_from]. destruct skip as [|skip].
  - destruct (match_at (String c s)) as [[|n]|]; cbn [String.length].
    + specialize (IH O). lia.
    + specialize (IH n). lia.
    + specialize (IH O). lia.
  - cbn [String.length]. specialize (IH skip). lia.
Qed.

Lemma length_strip (s : string) :
  (String.length (strip s) <= String.length s)%nat.
Proof.
  destruct (strip_parts s) as (a & b & E). rewrite E at 2.
  rewrite !length_append. lia.
Qed.

Lemma length_take_le (n : nat) (s : string) :
  (String.length (take n s) <= n)%nat.
Proof.
  revert s. induction n as [|n IH]; intros [|c s]; cbn [take String.length];
    try lia.
  specialize (IH s). lia.
Qed.

Lemma length_limit_length (s : string) :
  (String.length (limit_length s) <= max_length + 26)%nat
  /\ ((String.length s <= max_length)%nat -> limit_length s = s).
Proof.
  unfold limit_length.
  destruct (max_length <? String.length s)%nat eqn:E.
  - apply Nat.ltb_lt in E. split; [|lia].
    rewrite length_append. change (String.length truncation_mark) with 26%nat.
    pose proof (length_take_le max_length s). lia.
  - apply Nat.ltb_ge in E. split; [lia|reflexivity].
Qed.

Lemma max_length_value : Z.of_nat max_length = 10000.
Proof. unfold max_length. lia. Qed.

End SanitizeText.

Section SanitizePlainText.

Lemma re_sub_from_none (c : ascii) (match_at : string -> option nat) :
  (forall s n, match_at s = Some n -> without_char c s = false) ->
  forall s, without_char c s = true -> re_sub_from match_at O s = s.
Proof.
  intros Hm. induction s as [|d s IH]; intros H; [reflexivity|].
  cbn [re_sub_from].
  destruct (match_at (String d s)) as [n|] eqn:E.
  - apply Hm in E. congruence.
  - cbn [without_char] in H. apply andb_true_iff in H. now rewrite IH.
Qed.

Lemma without_char_drop (c : ascii) (k : nat) (s : string) :
  without_char c s = true -> without_char c (drop k s) = true.
Proof.
  revert s. induction k as [|k IH]; intros [|d s] H; try exact H.
  cbn [without_char] in H. apply andb_true_iff in H. now apply IH.
Qed.

Lemma startswith_char (c : ascii) (s : string) :
  startswith s (String c "") = true -> without_char c s = false.
Proof.
  intros H. apply startswith_iff in H. destruct H as [r ->].
  cbn [append without_char]. now rewrite Ascii.eqb_refl.
Qed.

Lemma with_char_drop (c : ascii) (k : nat) (s : string) :
  without_char c (drop k s) = false -> without_char c s = false.
Proof.
  intros H. destruct (without_char c s) eqn:E; [|reflexivity].
  now rewrite (without_char_drop c k s E) in H.
Qed.

Lemma match_script_lt (s : string) (n : nat) :
  match_script s = Some n -> without_char "<" s = false.
Proof.
  destruct s as [|c s]; [discriminate|]. unfold match_script.
  destruct c as [[] [] [] [] [] [] [] []]; try discriminate. reflexivity.
Qed.

Lemma match_tag_lt_char (s : string) (n : nat) :
  match_tag s = Some n -> without_char "<" s = false.
Proof. intros H. destruct (match_tag_starts s n H) as [s' ->]. reflexivity. Qed.

Lemma lower_letter_colon (d : ascii) :
  Ascii.eqb ":" (lower_letter d) = true -> d = ":"%char.
Proof. destruct d as [[] [] [] [] [] [] [] []]; vm_compute; congruence. Qed.

Lemma startswith_nocase_drop (p : string) (c : ascii) (s : string) :
  startswith_nocase s (p ++ String c "") = true ->
  Ascii.eqb c (lower_letter
                 (match drop (String.length p) s with
                  | String d _ => d
                  | "" => c
                  end)) = true
  /\ drop (String.length p) s <> "".
Proof.
  revert s. induction p as [|e p IH]; intros [|d s] H; try discriminate.
  - cbn [append startswith_nocase] in H. apply andb_true_iff in H.
    cbn [String.length drop]. now split.
  - cbn [append startswith_nocase] in H. apply andb_true_iff in H.
    cbn [String.length drop]. now apply IH.
Qed.

Lemma match_javascript_colon (s : string) (n : nat) :
  match_javascript s = Some n -> without_char ":" s = false.
Proof.
  unfold match_javascript.
  destruct (startswith_nocase s "javascript:") eqn:E; [|discriminate].
  intros _. apply (startswith_nocase_drop "javascript" ":") in E.
  destruct E as [E Hne]. apply (with_char_drop _ 10).
  cbn [String.length] in E, Hne.
  destruct (drop 10 s) as [|d r]; [congruence|].
  apply lower_letter_colon in E. subst d. reflexivity.
Qed.

Lemma match_handler_equals (s : string) (n : nat) :
  match_handler s = Some n -> without_char "=" s = false.
Proof.
  unfold match_handler.
  destruct (startswith_nocase s "on"); [|discriminate].
  destruct (span_length is_word (drop 2 s)) as [|w]; [discriminate|].
  match goal with
  | |- context [startswith ?r "="] => destruct (startswith r "=") eqn:E
  end; [|discriminate].
  intros _. apply startswith_char in E.
  now apply with_char_drop, with_char_drop in E.
Qed.

End SanitizePlainText.

(** X11: what [sanitize_text] returns holds no HTML tag, that is, no
    ["<"], then one character or more other than [">"], then [">"]:
    between a ["<"] and the next [">"] of the result there is nothing. *)
Theorem sanitize_text_no_tag (text pre x post : string) :
  sanitize_text text = pre ++ "<" ++ x ++ ">" ++ post ->
  without_char ">" x = true -> x = "".
Proof.
  intros E Hx. pose proof (tag_free_sanitize_text text) as H.
  rewrite E in H. apply tag_free_suffix in H.
  change ("<" ++ x ++ ">" ++ post) with (String "<" (x ++ ">" ++ post)) in H.
  cbn [tag_free] in H. apply andb_true_iff in H. destruct H as [H _].
  rewrite Ascii.eqb_refl in H. cbn [negb orb] in H.
  apply orb_true_iff in H. destruct H as [H|H].
  - destruct x as [|c x]; [reflexivity|]. exfalso.
    apply startswith_iff in H. destruct H as [r Hr].
    cbn [append] in Hr. injection Hr as -> _.
    cbn [without_char] in Hx. now rewrite Ascii.eqb_refl in Hx.
  - exfalso. rewrite !without_char_app in H. cbn [without_char] in H.
    rewrite Ascii.eqb_refl in H. cbn [negb andb] in H.
    now rewrite andb_false_r in H.
Qed.

Lemma sanitize_text_no_tag_witness :
  sanitize_text "a <b>bold</b> <> c"
  = "a bold " ++ "<" ++ "" ++ ">" ++ " c"
  /\ without_char ">" "" = true /\ "" = "".
Proof.
  split; [vm_compute; reflexivity|]. split; [reflexivity|].
  apply (sanitize_text_no_tag "a <b>bold</b> <> c" "a bold " "" " c");
    vm_compute; reflexivity.
Defined.

(** X12: what [sanitize_text] returns has at most 10026 characters, the
    limit and the length of the truncation mark; a text of at most 10000
    characters is never made longer. *)
Theorem sanitize_text_length (text : string) :
  Z.of_nat (String.length (sanitize_text text)) <= 10026
  /\ (Z.of_nat (String.length text) <= 10000 ->
      (String.length (sanitize_text text) <= String.length text)%nat).
Proof.
  pose proof max_length_value as Hmax.
  destruct text as [|c text]; [cbn; split; lia|].
  unfold sanitize_text, re_sub.
  set (t0 := String c text).
  set (t1 := re_sub_from match_script O t0).
  set (t2 := re_sub_from match_tag O t1).
  set (t3 := re_sub_from match_javascript O t2).
  set (t4 := re_sub_from match_handler O t3).
  pose proof (length_re_sub_from match_script O t0).
  pose proof (length_re_sub_from match_tag O t1).
  pose proof (length_re_sub_from match_javascript O t2).
  pose proof (length_re_sub_from match_handler O t3).
  pose proof (length_strip (limit_length t4)).
  destruct (length_limit_length t4) as [Hle Hid].
  fold t1 in H. fold t2 in H0. fold t3 in H1. fold t4 in H2.
  split; [lia|]. intros Hlen. rewrite Hid in H3 |- * by lia. lia.
Qed.

Lemma sanitize_text_length_witness :
  Z.of_nat (String.length "<b>bold</b>") <= 10000
  /\ (String.length (sanitize_text "<b>bold</b>")
      <= String.length "<b>bold</b>")%nat.
Proof.
  split; [vm_compute; discriminate|].
  apply (sanitize_text_length "<b>bold</b>"). vm_compute. discriminate.
Defined.

(** X13: a text of at most 10000 characters with none of the characters
    ["<"], [":"] and ["="] is only stripped of the white space at its
    ends: no pattern of [sanitize_text] matches in it. *)
Theorem sanitize_text_plain (text : string) :
  without_char "<" text = true -> without_char ":" text = true ->
  without_char "=" text = true ->
  Z.of_nat (String.length text) <= 10000 ->
  sanitize_text text = strip text.
Proof.
  intros Hlt Hcolon Heq Hlen. pose proof max_length_value as Hmax.
  destruct text as [|c text]; [reflexivity|].
  unfold sanitize_text, re_sub.
  rewrite (re_sub_from_none "<" match_script match_script_lt _ Hlt).
  rewrite (re_sub_from_none "<" match_tag match_tag_lt_char _ Hlt).
  rewrite (re_sub_from_none ":" match_javascript match_javascript_colon _ Hcolon).
  rewrite (re_sub_from_none "=" match_handler match_handler_equals _ Heq).
  destruct (length_limit_length (String c text)) as [_ ->]; [reflexivity|lia].
Qed.

Lemma sanitize_text_plain_witness :
  sanitize_text "  Looks good to me.  " = "Looks good to me.".
Proof.
  apply (sanitize_text_plain "  Looks good to me.  ");
    vm_compute; try reflexivity; discriminate.
Defined.


(** ** [verify_webhook_signature] *)

Section WebhookFacts.

Lemma hexdigest_ascii (digest : list Byte.byte) :
  all_chars is_ascii (hexdigest digest) = true.
Proof.
  induction digest as [|b digest IH]; [reflexivity|].
  cbn [hexdigest all_chars]. rewrite IH.
  destruct b; reflexivity.
Qed.

Lemma find_from_char_none (c : ascii) (s : string) (pos : nat) :
  find_from (String c "") s pos = None <-> without_char c s = true.
Proof.
  revert pos. induction s as [|d s IH]; intros pos; [easy|].
  cbn [find_from startswith without_char]. rewrite andb_true_r.
  destruct (Ascii.eqb c d); cbn [negb andb]; [easy|apply IH].
Qed.

Lemma split_once_none (c : ascii) (s : string) :
  without_char c s = true -> split_once s (String c "") = [s].
Proof.
  intros H. unfold split_once, find. cbn [Nat.leb drop].
  apply find_from_char_none with (pos := O) in H. now rewrite H.
Qed.

Lemma split_once_some (c : ascii) (s : string) :
  without_char c s = false ->
  exists a b, split_once s (String c "") = [a; b]
              /\ s = a ++ String c b /\ without_char c a = true.
Proof.
  intros H. unfold split_once.
  pose proof (find_found s (String c "") O (Nat.le_0_l _)) as F.
  destruct (find s (String c "") 0) as [r|] eqn:E.
  - destruct F as (i & -> & [Hs Hfirst] & _). cbn [drop Nat.add] in *.
    exists (take i s), (drop (i + 1) s). split; [reflexivity|].
    split; [exact Hs|].
    destruct (without_char c (take i s)) eqn:Ew; [reflexivity|exfalso].
    assert (Hc : contains (String c "") (take i s) = true).
    { clear -Ew. induction (take i s) as [|d t IH]; [discriminate|].
      cbn [without_char] in Ew. cbn [contains startswith].
      rewrite andb_true_r.
      destruct (Ascii.eqb c d); [reflexivity|]. now apply IH. }
    apply contains_iff in Hc. destruct Hc as (pre & post & Ht).
    pose proof (Hfirst pre (post ++ String c "" ++ drop (i + 1) s)) as Hle.
    rewrite Hs in Hle at 1. rewrite Ht in Hle.
    rewrite !append_assoc in Hle. specialize (Hle eq_refl).
    assert (Hlen : (String.length (take i s) <= i)%nat)
      by apply length_take_le.
    rewrite Ht, !length_append in *. cbn [String.length] in *. lia.
  - unfold find in E. cbn [Nat.leb drop] in E.
    apply find_from_char_none in E. congruence.
Qed.

Lemma split_once_at (c : ascii) (a b : string) :
  without_char c a = true ->
  split_once (a ++ String c b) (String c "") = [a; b].
Proof.
  intros Ha.
  destruct (split_once_some c (a ++ String c b)) as (a' & b' & E & Hs & Ha').
  { rewrite without_char_app. cbn [without_char].
    rewrite Ascii.eqb_refl. now rewrite andb_false_r. }
  rewrite E.
  assert (Hlen : String.length a = String.length a').
  { destruct (Nat.lt_trichotomy (String.length a) (String.length a'))
      as [Hlt|[Heq|Hgt]]; [exfalso|exact Heq|exfalso].
    - pose proof (no_occurrence_within c "" a' (String c b') (String.length a)
                    Ha' Hlt)
        as Hn.
      rewrite <- Hs, drop_append in Hn. cbn [startswith] in Hn.
      now rewrite Ascii.eqb_refl in Hn.
    - pose proof (no_occurrence_within c "" a (String c b) (String.length a')
                    Ha Hgt)
        as Hn.
      rewrite Hs, drop_append in Hn. cbn [startswith] in Hn.
      now rewrite Ascii.eqb_refl in Hn. }
  symmetry in Hlen.
  destruct (append_inv_length _ _ _ _ (eq_sym Hs) Hlen) as [-> Hb].
  now injection Hb as ->.
Qed.

End WebhookFacts.

(** X14: [verify_webhook_signature] returns [True] exactly when the
    secret is set and not empty and the signature is ["sha256="] followed
    by the hexadecimal HMAC-SHA256 digest of the payload under the
    encoded secret. *)
Theorem verify_webhook_signature_accepts
    (hmac_sha256 : list Byte.byte -> list Byte.byte -> list Byte.byte)
    (payload : list Byte.byte) (signature secret : option string) :
  verify_webhook_signature hmac_sha256 payload signature secret
  = Returned true
  <-> exists key,
        secret = Some key /\ key <> ""
        /\ signature
           = Some ("sha256="
                   ++ hexdigest (hmac_sha256 (encode key) payload)).
Proof.
  split.
  - destruct signature as [[|c sgn]|]; try discriminate.
    destruct secret as [[|k key]|]; try discriminate.
    cbn [verify_webhook_signature].
    set (s := String c sgn). set (h := hexdigest _).
    destruct (without_char "=" s) eqn:Ew.
    + now rewrite (split_once_none _ _ Ew).
    + destruct (split_once_some _ _ Ew) as (a & b & -> & Hs & _).
      destruct (String.eqb a "sha256") eqn:Ea; [|discriminate].
      apply String.eqb_eq in Ea. subst a. cbn [negb]. unfold compare_digest.
      destruct (all_chars is_ascii h && all_chars is_ascii b);
        [|discriminate].
      intros [= Hb]. apply String.eqb_eq in Hb. subst b.
      exists (String k key). repeat split; [discriminate|].
      now rewrite Hs.
  - intros (key & -> & Hkey & ->).
    destruct key as [|k key]; [congruence|].
    cbn [verify_webhook_signature append].
    set (h := hexdigest _).
    change (String "s" (String "h" (String "a" (String "2" (String "5"
              (String "6" (String "=" h)))))))
      with ("sha256" ++ String "=" h).
    rewrite (split_once_at "=" "sha256" h eq_refl). cbn [String.eqb negb].
    unfold compare_digest. unfold h at 1. rewrite hexdigest_ascii.
    rewrite String.eqb_refl.
    unfold h. now rewrite hexdigest_ascii.
Qed.

(** X15: [verify_webhook_signature] raises instead of returning in two
    cases only, both with a signature and a secret that are set and not
    empty: a [ValueError] when the signature has no ["="], and a
    [TypeError] when it is ["sha256="] followed by a text that is not
    all ASCII. *)
Theorem verify_webhook_signature_raises
    (hmac_sha256 : list Byte.byte -> list Byte.byte -> list Byte.byte)
    (payload : list Byte.byte) (signature secret : option string)
    (e : exception) :
  verify_webhook_signature hmac_sha256 payload signature secret = Raised e
  <-> exists sgn key,
        signature = Some sgn /\ secret = Some key
        /\ sgn <> "" /\ key <> ""
        /\ ((e = ValueError /\ without_char "=" sgn = true)
            \/ (e = TypeError
                /\ exists sig, sgn = "sha256=" ++ sig
                               /\ all_chars is_ascii sig = false)).
Proof.
  split.
  - destruct signature as [[|c sgn]|]; try discriminate.
    destruct secret as [[|k key]|]; try discriminate.
    cbn [verify_webhook_signature].
    set (s := String c sgn). set (h := hexdigest _).
    intros H. exists s, (String k key).
    repeat (split; [reflexivity || discriminate|]).
    destruct (without_char "=" s) eqn:Ew.
    + rewrite (split_once_none _ _ Ew) in H. injection H as <-.
      now left.
    + destruct (split_once_some _ _ Ew) as (a & b & Hsp & Hs & _).
      rewrite Hsp in H.
      destruct (String.eqb a "sha256") eqn:Ea; [|discriminate].
      apply String.eqb_eq in Ea. subst a. cbn [negb] in H.
      unfold compare_digest in H. unfold h in H.
      rewrite hexdigest_ascii in H. cbn [andb] in H.
      destruct (all_chars is_ascii b) eqn:Eb; [discriminate|].
      injection H as <-. right. split; [reflexivity|].
      exists b. now split.
  - intros (sgn & key & -> & -> & Hsgn & Hkey & H).
    destruct sgn as [|c sgn]; [congruence|].
    destruct key as [|k key]; [congruence|].
    cbn [verify_webhook_signature].
    destruct H as [[-> Hw]|[-> (sig & Hs & Hsig)]].
    + now rewrite (split_once_none _ _ Hw).
    + rewrite Hs.
      change ("sha256=" ++ sig) with ("sha256" ++ String "=" sig).
      rewrite (split_once_at "=" "sha256" sig eq_refl).
      cbn [String.eqb negb]. unfold compare_digest.
      now rewrite Hsig, andb_false_r.
Qed.


(** ** [apply_suggestions_to_pr]: the suggestions file by file *)

Section Dictionaries.

Context {V : Type}.

Lemma dict_get_set (d : list (string * V)) (k k' : string) (v : V) :
  dict_get (dict_set d k v) k'
  = if String.eqb k k' then Some v else dict_get d k'.
Proof.
  induction d as [|[k0 v0] d IH]; cbn [dict_set dict_get]; [reflexivity|].
  destruct (String.eqb k0 k) eqn:E0; cbn [dict_get].
  - apply String.eqb_eq in E0. subst k0. now destruct (String.eqb k k').
  - rewrite IH. destruct (String.eqb k0 k') eqn:E1; [|reflexivity].
    apply String.eqb_eq in E1. subst k0. now rewrite String.eqb_sym, E0.
Qed.

Lemma dict_get_not_key (d : list (string * V)) (k : string) :
  ~ In k (map fst d) -> dict_get d k = None.
Proof.
  induction d as [|[k0 v0] d IH]; cbn [map fst In dict_get]; [reflexivity|].
  intros H. destruct (String.eqb k0 k) eqn:E.
  - apply String.eqb_eq in E. tauto.
  - apply IH. tauto.
Qed.

Lemma dict_get_key (d : list (string * V)) (k : string) :
  dict_get d k = None -> ~ In k (map fst d).
Proof.
  induction d as [|[k0 v0] d IH]; cbn [map fst In dict_get]; [tauto|].
  destruct (String.eqb k0 k) eqn:E; [discriminate|].
  apply String.eqb_neq in E. intros H [H'|H']; [congruence|].
  now apply IH.
Qed.

Lemma dict_set_keys (d : list (string * V)) (k : string) (v : V) :
  forall k', In k' (map fst (dict_set d k v)) <-> k' = k \/ In k' (map fst d).
Proof.
  induction d as [|[k0 v0] d IH]; intros k'; cbn [dict_set map fst In].
  - intuition congruence.
  - destruct (String.eqb k0 k) eqn:E; cbn [map fst In].
    + apply String.eqb_eq in E. subst k0. intuition congruence.
    + rewrite IH. tauto.
Qed.

Lemma dict_set_nodup (d : list (string * V)) (k : string) (v : V) :
  NoDup (map fst d) -> NoDup (map fst (dict_set d k v)).
Proof.
  induction d as [|[k0 v0] d IH]; cbn [dict_set map fst]; intros H.
  - repeat constructor. intros [].
  - inversion H as [|? ? Hnot Hd]; subst.
    destruct (String.eqb k0 k) eqn:E; cbn [map fst].
    + apply String.eqb_eq in E. subst k0. now constructor.
    + constructor; [|now apply IH]. rewrite dict_set_keys.
      apply String.eqb_neq in E. intros [->|H']; [congruence|tauto].
Qed.

End Dictionaries.

Section SuggestionsByFile.

Variable get_contents : string -> option string.

(** The groups after more suggestions: the edits of a file are added to
    its group in their order, and no key comes twice. *)
Lemma fold_group_append (suggestions : list (string * Z * string))
    (groups : list (string * list edit)) (file_path : string) :
  let groups' :=
    fold_left
      (fun groups s => group_append groups (fst (fst s)) (snd (fst s), snd s))
      suggestions groups in
  (NoDup (map fst groups) -> NoDup (map fst groups'))
  /\ dict_get groups' file_path
     = match dict_get groups file_path, edits_for file_path suggestions with
       | None, [] => None
       | None, es => Some es
       | Some group, es => Some (group ++ es)%list
       end.
Proof.
  revert groups. induction suggestions as [|[[f line] sugg] suggestions IH];
    intros groups; cbn [fold_left fst snd].
  - split; [trivial|]. cbn [edits_for filter map].
    destruct (dict_get groups file_path); [now rewrite app_nil_r|reflexivity].
  - destruct (IH (group_append groups f (line, sugg))) as [IH1 IH2].
    split.
    + intros H. apply IH1. now apply dict_set_nodup.
    + cbv zeta in IH2. rewrite IH2. unfold group_append.
      rewrite dict_get_set. unfold edits_for. cbn [filter fst snd].
      destruct (String.eqb f file_path) eqn:E; cbn [map fst snd].
      * apply String.eqb_eq in E. subst f.
        destruct (dict_get groups file_path) as [group|].
        -- now rewrite <- app_assoc.
        -- reflexivity.
      * reflexivity.
Qed.

Lemma suggestion_groups_get (suggestions : list (string * Z * string))
    (file_path : string) :
  NoDup (map fst (suggestion_groups suggestions))
  /\ dict_get (suggestion_groups suggestions) file_path
     = match edits_for file_path suggestions with
       | [] => None
       | es => Some es
       end.
Proof.
  destruct (fold_group_append suggestions [] file_path) as [H1 H2].
  split; [apply H1; constructor | exact H2].
Qed.

Lemma file_change_nil (content : string) : file_change content [] = None.
Proof. reflexivity. Qed.

(** The changes after a loop over groups with distinct keys. *)
Lemma fold_changes (groups : list (string * list edit))
    (acc : list (string * string)) (file_path : string) :
  NoDup (map fst groups) ->
  dict_get
    (fold_left
       (fun changes g =>
          match file_change (current_content get_contents (fst g)) (snd g) with
          | Some content => dict_set changes (fst g) content
          | None => changes
          end)
       groups acc) file_path
  = match dict_get groups file_path with
    | Some suggs =>
        match file_change (current_content get_contents file_path) suggs with
        | Some content => Some content
        | None => dict_get acc file_path
        end
    | None => dict_get acc file_path
    end.
Proof.
  revert acc. induction groups as [|[f suggs] groups IH]; intros acc Hnd;
    [reflexivity|].
  cbn [map fst] in Hnd. inversion Hnd as [|? ? Hnot Hnd']; subst.
  cbn [fold_left fst snd dict_get]. rewrite (IH _ Hnd').
  destruct (String.eqb f file_path) eqn:E.
  - apply String.eqb_eq in E. subst f.
    rewrite (dict_get_not_key _ _ Hnot).
    destruct (file_change (current_content get_contents file_path) suggs);
      [|reflexivity].
    now rewrite dict_get_set, String.eqb_refl.
  - destruct (file_change (current_content get_contents f) suggs);
      [|reflexivity].
    now rewrite dict_get_set, E.
Qed.

Lemma changes_get (suggestions : list (string * Z * string))
    (file_path : string) :
  dict_get (changes get_contents suggestions) file_path
  = file_change (current_content get_contents file_path)
      (edits_for file_path suggestions).
Proof.
  destruct (suggestion_groups_get suggestions file_path) as [Hnd Hget].
  unfold changes. rewrite (fold_changes _ _ _ Hnd), Hget.
  destruct (edits_for file_path suggestions) as [|e es]; [reflexivity|].
  now destruct (file_change _ _).
Qed.

End SuggestionsByFile.

(** X16: the suggestions are applied file by file: the entry of
    [changes] for a file is what applying the suggestions of that file,
    in their order, to its content gives, whatever the suggestions for
    the other files are and wherever they stand in the list; a file with
    no applied suggestion has no entry. *)
Theorem changes_file_by_file (get_contents : string -> option string)
    (suggestions : list (string * Z * string)) (file_path : string) :
  dict_get (changes get_contents suggestions) file_path
  = file_change (current_content get_contents file_path)
      (edits_for file_path suggestions).
Proof. apply changes_get. Qed.

(** X17: a suggestion read from a block that removes the lines
    [removed] of a file and adds the lines [added] in their place
    replaces the first of the removed lines only: the other removed
    lines stay in the file, after the added ones. *)
Theorem block_replaces_first_removed_line
    (get_contents : string -> option string) (content file_path : string)
    (hunk_header : string) (before removed added after : list string) :
  get_contents file_path = Some content ->
  split_lines content = (before ++ removed ++ after)%list ->
  removed <> [] ->
  one_line file_path = true -> one_line hunk_header = true ->
  hunk_new_start hunk_header = Some (len before + 1) ->
  Forall (fun l => one_line l = true) added ->
  added <> [] -> rstrip (last added "") = last added "" ->
  exists suggestion,
    parse_diff_for_suggestions
      (suggestion_block file_path hunk_header removed added)
    = Some suggestion
    /\ dict_get (changes get_contents [suggestion]) file_path
       = Some (join_lines (before ++ added ++ tl removed ++ after)).
Proof.
  intros Hget Hlines Hrem Hpath Hheader Hstart Hadded Hne Hlast.
  assert (Hremoved : Forall (fun l => one_line l = true) removed).
  { pose proof (split_lines_all_one_line content) as H.
    rewrite Hlines in H. apply Forall_app in H. destruct H as [_ H].
    apply Forall_app in H. tauto. }
  exists (file_path, len before + 1, join_lines added). split.
  - now apply parse_diff_for_suggestions_block.
  - rewrite changes_get. unfold edits_for, current_content.
    cbn [filter fst snd map]. rewrite String.eqb_refl, Hget.
    cbn [map fst snd]. unfold file_change, apply_suggestions.
    cbn [sort_by_line fold_right insert_by_line fold_left].
    destruct removed as [|r removed]; [congruence|].
    assert (Hb : 0 <= len before + 1 - 1 + offset (patch_init content)
                 < len (lines (patch_init content))).
    { cbn [patch_init lines offset]. rewrite Hlines. unfold len.
      rewrite !List.length_app. cbn [List.length]. lia. }
    rewrite (apply_one_in_bounds _ _ _ Hb).
    cbn [patch_init applied lines offset]. rewrite Hlines. unfold len.
    f_equal. f_equal.
    replace (Z.to_nat (Z.of_nat (List.length before) + 1 - 1 + 0))
      with (List.length before) by lia.
    rewrite split_join_lines by assumption.
    rewrite firstn_app, firstn_all, Nat.sub_diag. cbn [firstn].
    rewrite app_nil_r. f_equal. f_equal.
    change (S (List.length before)) with (1 + List.length before)%nat.
    rewrite <- skipn_skipn, skipn_app, skipn_all, Nat.sub_diag.
    reflexivity.
Qed.

Lemma block_replaces_first_removed_line_witness :
  exists suggestion,
    parse_diff_for_suggestions
      (suggestion_block "app.py" "@@ -2,2 +2,1 @@" ["b"; "c"] ["x"])
    = Some suggestion
    /\ dict_get
         (changes (fun _ => Some ("a" ++ nl ++ "b" ++ nl ++ "c" ++ nl ++ "d"))
            [suggestion]) "app.py"
       = Some (join_lines (["a"] ++ ["x"] ++ tl ["b"; "c"] ++ ["d"])).
Proof.
  apply (block_replaces_first_removed_line
           (fun _ => Some ("a" ++ nl ++ "b" ++ nl ++ "c" ++ nl ++ "d"))
           ("a" ++ nl ++ "b" ++ nl ++ "c" ++ nl ++ "d") "app.py"
           "@@ -2,2 +2,1 @@" ["a"] ["b"; "c"] ["x"] ["d"]);
    try reflexivity; try discriminate; repeat constructor.
Defined.
